(** * Customer-support RAG chatbot: a shallow embedding of the decision logic

    The development follows the Python sources:
    - [src/qdrant_client.py]: [clean_metadata], [QdrantVectorStore.upload_data],
      [hybrid_search], [semantic_search], [search];
    - [src/rag_chain.py]: [RAGPipeline.generate_response], [_format_context],
      [_is_greeting];
    - [src/redis_memory.py]: [RedisMemory.get_history].

    Modelling choices:
    - a Python [float] is an IEEE-754 value, [spec_float] of the Standard
      Library, compared with [SFleb] / [SFltb] (NaN compares false);
    - a Python [int] is a [Z]; a [str] is a [string], the UTF-8 bytes of the
      text.  [strip] and [in] on ASCII characters and phrases are the same
      on bytes as on code points.  [str.lower] is a variable of the
      pipeline.  [str.isdigit], [int] and [float] are computed on
      [plain_text] (ASCII, of a length [int] accepts); on any other text
      they are what the [interpreter] makes of it, so that a conversion
      can raise as it does in Python;
    - a [dict] with string keys is a [gmap string _], which keeps no
      insertion order: where a loop over a dict can raise, the model says
      that the error of one failing item is raised, not which;
    - code that can raise runs in an exception monad, and code that also
      touches a service or the random generator threads a world through it;
    - the hosted services (embedding API, vector database, language model,
      Redis) are variables of the sections that use them. *)

From Stdlib Require Import ZArith Ascii String List SpecFloat.
From stdpp Require Import base option list gmap strings pretty fin_maps.

Local Open Scope string_scope.
Local Open Scope list_scope.

(** ** Python values and exceptions *)

Module Py.

(** The values metadata and payloads may hold.  [NpInt], [NpFloat] and
    [NpComplex] are the numpy numbers ([np.integer], [np.floating],
    [np.complexfloating]: the three kinds of [np.number]), an integer one
    given by its [int()], a floating one by its [float()] and a complex
    one by its two parts; [PyList] stands for the values that are neither
    numpy numbers nor of a scalar type. *)
#[warnings="-register-all"]
Inductive value :=
  | PyNone
  | PyBool (b : bool)
  | PyInt (z : Z)
  | PyFloat (f : spec_float)
  | PyStr (s : string)
  | NpInt (z : Z)
  | NpFloat (f : spec_float)
  | NpComplex (re im : spec_float)
  | PyList (l : list value).

(** Exceptions, all of them instances of Python's [Exception].
    [ServiceError cls msg] is an error raised by a hosted service or its
    client library. *)
Inductive exn :=
  | ValueError (msg : string)
  | TypeError (msg : string)
  | KeyError (key : string)
  | IndexError (msg : string)
  | ServiceError (cls msg : string).

(** [str(e)] *)
Definition str_exn (e : exn) : string :=
  match e with
  | ValueError msg | TypeError msg | IndexError msg => msg
  | KeyError key => "'" +:+ key +:+ "'"
  | ServiceError _ msg => msg
  end.

(** The outcome of a call: a value, or a raised exception. *)
Inductive outcome (A : Type) :=
  | Returned (a : A)
  | Raised (e : exn).
Arguments Returned {A} a.
Arguments Raised {A} e.

Definition nl : string := String (ascii_of_nat 10) "".

(** *** String operations *)

Definition is_upper (c : ascii) : bool :=
  (65 <=? nat_of_ascii c)%nat && (nat_of_ascii c <=? 90)%nat.

Definition lower_char (c : ascii) : ascii :=
  if is_upper c then ascii_of_nat (nat_of_ascii c + 32) else c.

(** [s.lower()] for ASCII text *)
Fixpoint lower (s : string) : string :=
  match s with
  | "" => ""
  | String c r => String (lower_char c) (lower r)
  end.

Fixpoint mem_char (c : ascii) (chars : string) : bool :=
  match chars with
  | "" => false
  | String d r => Ascii.eqb c d || mem_char c r
  end.

Fixpoint lstrip (chars s : string) : string :=
  match s with
  | "" => ""
  | String c r => if mem_char c chars then lstrip chars r else s
  end.

Fixpoint rstrip (chars s : string) : string :=
  match s with
  | "" => ""
  | String c r =>
      match rstrip chars r with
      | "" => if mem_char c chars then "" else String c ""
      | r' => String c r'
      end
  end.

(** [s.strip(chars)] *)
Definition strip (chars s : string) : string := rstrip chars (lstrip chars s).

(** A phrase that [strip] cannot cut into: it is not empty and neither its
    first nor its last character is one of [chars]. *)
Definition first_kept (chars phrase : string) : bool :=
  match phrase with
  | "" => false
  | String c _ => negb (mem_char c chars)
  end.

Fixpoint last_kept (chars phrase : string) : bool :=
  match phrase with
  | "" => false
  | String c "" => negb (mem_char c chars)
  | String _ r => last_kept chars r
  end.

(** [needle in hay] *)
Fixpoint contains (needle hay : string) : bool :=
  String.prefix needle hay ||
  match hay with
  | "" => false
  | String _ r => contains needle r
  end.

(** [s.replace(old, '', 1)] for a one-character [old] *)
Fixpoint remove_first (old : ascii) (s : string) : string :=
  match s with
  | "" => ""
  | String c r => if Ascii.eqb c old then r else String c (remove_first old r)
  end.

Definition is_digit_char (c : ascii) : bool :=
  (48 <=? nat_of_ascii c)%nat && (nat_of_ascii c <=? 57)%nat.

Fixpoint all_digits (s : string) : bool :=
  match s with
  | "" => true
  | String c r => is_digit_char c && all_digits r
  end.

(** [s.isdigit()]: non-empty and made of digits *)
Definition isdigit (s : string) : bool :=
  match s with
  | "" => false
  | _ => all_digits s
  end.

(** The number a string of digits denotes, read left to right; characters
    that are not digits (the decimal point) are skipped. *)
Fixpoint digits_value (s : string) (acc : N) : N :=
  match s with
  | "" => acc
  | String c r =>
      if is_digit_char c
      then digits_value r (10 * acc + N.of_nat (nat_of_ascii c - 48))%N
      else digits_value r acc
  end.

(** Text on which [isdigit], [int] and [float] below are Python's: ASCII
    characters only, and no more of them than [int] converts (4300 digits
    by default). *)
Fixpoint all_ascii (s : string) : bool :=
  match s with
  | "" => true
  | String c r => (nat_of_ascii c <? 128)%nat && all_ascii r
  end.

Definition plain_text (s : string) : bool :=
  all_ascii s && (String.length s <=? 4300)%nat.

(** [int(s)] for a string of digits *)
Definition int_of_digits (s : string) : Z := Z.of_N (digits_value s 0).

Fixpoint after_point (s : string) : string :=
  match s with
  | "" => ""
  | String c r => if Ascii.eqb c "." then r else after_point r
  end.

(** [float(s)] for digits with one decimal point: the binary64 value
    nearest to the decimal, as the correctly rounded quotient of two
    integers. *)
Definition float_of_decimal (s : string) : spec_float :=
  match digits_value s 0 with
  | N0 => S754_zero false
  | Npos m =>
      SFdiv 53 1024 (S754_finite false m 0)
        (S754_finite false
           (Z.to_pos (10 ^ Z.of_nat (String.length (after_point s)))) 0)
  end.

(** *** The conversions of the interpreter

    [str.isdigit] follows the Unicode tables, and [int] and [float] take
    digits of every script but not every character that [isdigit]
    accepts; [int] also refuses more digits than its limit.  On plain
    text all three are computed above.  On other text they are the
    interpreter's: [wide_isdigit], [wide_int] and [wide_float].
    [complex_int re im] is [int(z)] for a complex numpy number [z]. *)
Record interpreter := Interpreter {
  wide_isdigit : string -> bool;
  wide_int : string -> outcome Z;
  wide_float : string -> outcome spec_float;
  complex_int : spec_float -> spec_float -> outcome Z
}.

(** [s.isdigit()] *)
Definition str_isdigit (py : interpreter) (s : string) : bool :=
  if plain_text s then isdigit s else wide_isdigit py s.

(** [int(s)] *)
Definition int_of_str (py : interpreter) (s : string) : outcome Z :=
  if plain_text s && isdigit s then Returned (int_of_digits s)
  else wide_int py s.

(** [float(s)] *)
Definition float_of_str (py : interpreter) (s : string) : outcome spec_float :=
  if plain_text s && isdigit (remove_first "." s) && contains "." s
  then Returned (float_of_decimal s)
  else wide_float py s.

(** *** Exceptions and state

    [M W A] is a computation that reads and updates a world [W] and either
    returns an [A] or raises; effects made before a raise stay in the
    world, as in Python. *)

Definition M (W A : Type) : Type := W -> outcome A * W.

#[global] Instance outcome_ret : MRet outcome := fun A a => Returned a.
#[global] Instance outcome_bind : MBind outcome := fun A B f o =>
  match o with
  | Returned a => f a
  | Raised e => Raised e
  end.

#[global] Instance M_ret {W} : MRet (M W) := fun A a w => (Returned a, w).
#[global] Instance M_bind {W} : MBind (M W) := fun A B f m w =>
  match m w with
  | (Returned a, w') => f a w'
  | (Raised e, w') => (Raised e, w')
  end.

Definition raise {W A} (e : exn) : M W A := fun w => (Raised e, w).

Definition lift {W A} (o : outcome A) : M W A := fun w => (o, w).

(** [try: m  except Exception as e: h e] *)
Definition try_except {W A} (m : M W A) (h : exn -> M W A) : M W A := fun w =>
  match m w with
  | (Returned a, w') => (Returned a, w')
  | (Raised e, w') => h e w'
  end.

Definition modify {W} (f : W -> W) : M W unit := fun w => (Returned tt, f w).

End Py.

(** ** The vector store adapter ([src/qdrant_client.py]) *)

Module Qdrant.
Import Py.

(** A point of the collection ([models.PointStruct]). *)
Record point := Point {
  pt_id : Z;
  pt_vector : list spec_float;
  pt_payload : gmap string value
}.

(** A hit returned by the store ([ScoredPoint]). *)
Record scored_point := ScoredPoint {
  hit_id : Z;
  hit_score : spec_float;
  hit_payload : gmap string value
}.

(** A search result, the dict built by the two search methods. *)
Record search_result := SearchResult {
  res_text : value;
  res_metadata : gmap string value;
  res_score : spec_float;
  res_id : Z
}.

(** The scalar types of the store: null, int, float, string, bool. *)
Definition is_scalar (v : value) : bool :=
  match v with
  | PyNone | PyBool _ | PyInt _ | PyFloat _ | PyStr _ => true
  | NpInt _ | NpFloat _ | NpComplex _ _ | PyList _ => false
  end.

(** A metadata dict whose string values are plain text and that holds no
    complex number: cleaning it consults no conversion of the
    interpreter. *)
Definition plain_value (v : value) : bool :=
  match v with
  | PyStr s => plain_text s
  | NpComplex _ _ => false
  | _ => true
  end.

Definition plain_metadata (metadata : gmap string value) : Prop :=
  map_Forall (fun _ v => plain_value v = true) metadata.

Section CleanMetadata.

Variable py : interpreter.

(** [str(value)] for a value that is not a scalar. *)
Variable str_object : value -> string.

(** [value.replace('.', '', 1).isdigit()] *)
Definition is_numeric_string (s : string) : bool :=
  str_isdigit py (remove_first "." s).

(** The body of the loop of [clean_metadata], for one value: what is
    stored under the key, or the error that [int] or [float] raises. *)
Definition clean_value (v : value) : outcome value :=
  match v with
  | PyNone => Returned PyNone
  | NpFloat f => Returned (PyFloat f)
  | NpInt z => Returned (PyInt z)
  | NpComplex re im => z ← complex_int py re im; mret (PyInt z)
  | PyStr s =>
      if is_numeric_string s
      then (if contains "." s then f ← float_of_str py s; mret (PyFloat f)
            else z ← int_of_str py s; mret (PyInt z))
      else Returned (PyStr s)
  | PyInt _ | PyFloat _ | PyBool _ => Returned v
  | PyList _ => Returned (PyStr (str_object v))
  end.

Definition clean_metadata (metadata : gmap string value)
  : outcome (gmap string value) :=
  map_fold (fun key v cleaned =>
              cleaned ← cleaned;
              v' ← clean_value v;
              mret (<[key := v']> cleaned))
    (Returned ∅) metadata.

(** The conversions that cleaning [v] attempts succeed. *)
Definition convertible (v : value) : Prop :=
  match v with
  | PyStr s =>
      is_numeric_string s = true ->
      if contains "." s then exists f, float_of_str py s = Returned f
      else exists z, int_of_str py s = Returned z
  | NpComplex re im => exists z, complex_int py re im = Returned z
  | _ => True
  end.

(** What [clean_metadata] makes of one value: a scalar is kept, but for a
    numeric string, which becomes the number [float] or [int] reads from
    it; a floating numpy number becomes the native float and any other
    numpy number the native int; a value of any other type becomes its
    string form. *)
Definition cleaned_as (v v' : value) : Prop :=
  match v with
  | PyNone | PyBool _ | PyInt _ | PyFloat _ => v' = v
  | PyStr s =>
      if is_numeric_string s
      then (if contains "." s
            then exists f, float_of_str py s = Returned f /\ v' = PyFloat f
            else exists z, int_of_str py s = Returned z /\ v' = PyInt z)
      else v' = v
  | NpInt z => v' = PyInt z
  | NpFloat f => v' = PyFloat f
  | NpComplex re im => exists z, complex_int py re im = Returned z /\ v' = PyInt z
  | PyList _ => v' = PyStr (str_object v)
  end.

End CleanMetadata.

(** *** Upload

    The collection lives in the vector database.  [requests] records every
    [upload_points] request sent to it and [stdout] what the adapter
    printed. *)
Record cluster := Cluster {
  collection : gmap Z point;
  requests : list (list point);
  stdout : list string
}.

(** The store keeps one point per id: a point uploaded under an id that is
    taken replaces the older point. *)
Definition upsert_points (points : list point) (coll : gmap Z point) : gmap Z point :=
  foldl (fun c p => <[pt_id p := p]> c) coll points.

(** [range(0, stop, step)] for a positive step *)
Definition range_step (stop step : nat) : list nat :=
  (fun k => k * step) <$> seq 0 ((stop + step - 1) / step).

Section Upload.

Variable py : interpreter.
Variable str_object : value -> string.

(** [str(point)], as printed in the error report. *)
Variable str_point : point -> string.

(** The service decides whether a request fails: [upload_fault n points] is
    the fate of the request sent after [n] earlier ones, [Some (e, k)] when
    it raises [e] after the service stored the first [k] points of it. *)
Variable upload_fault : nat -> list point -> option (exn * nat).

(** [self.client.upload_points(collection_name=..., points=points)] *)
Definition client_upload_points (points : list point) : M cluster unit := fun w =>
  match upload_fault (length (requests w)) points with
  | None =>
      (Returned tt,
       {| collection := upsert_points points (collection w);
          requests := requests w ++ [points];
          stdout := stdout w |})
  | Some (e, k) =>
      (Raised e,
       {| collection := upsert_points (take k points) (collection w);
          requests := requests w ++ [points];
          stdout := stdout w |})
  end.

Definition print (line : string) : M cluster unit :=
  modify (fun w =>
    {| collection := collection w; requests := requests w;
       stdout := stdout w ++ [line] |}).

(** The payloads [{"text": text, **metadata}]: a ["text"] key of the
    metadata overrides the text. *)
Definition make_payloads (texts : list string)
    (cleaned_metadatas : list (gmap string value)) : list (gmap string value) :=
  zip_with (fun text metadata => metadata ∪ {[ "text" := PyStr text ]})
    texts cleaned_metadatas.

(** The points of the batch that starts at offset [i]. *)
Definition batch_points (embeddings : list (list spec_float))
    (payloads : list (gmap string value)) (batch_size i : nat) : list point :=
  imap (fun k '(embedding, payload) => Point (Z.of_nat (i + k)) embedding payload)
    (zip (take batch_size (drop i embeddings)) (take batch_size (drop i payloads))).

Definition report_batch (batch_size i : nat) (points : list point) (e : exn)
  : M cluster unit :=
  print ("Error uploading batch " +:+ pretty (i / batch_size) +:+ ": " +:+ str_exn e);;
  print ("Problematic batch sample: " +:+
         match points with p :: _ => str_point p | [] => "Empty" end);;
  raise e.

(** The loop of [upload_data] over the batch offsets. *)
Fixpoint upload_batches (embeddings : list (list spec_float))
    (payloads : list (gmap string value)) (batch_size : nat) (starts : list nat)
  : M cluster unit :=
  match starts with
  | [] => mret tt
  | i :: rest =>
      let points := batch_points embeddings payloads batch_size i in
      try_except (client_upload_points points)
                 (report_batch batch_size i points);;
      upload_batches embeddings payloads batch_size rest
  end.

Definition upload_data (texts : list string) (embeddings : list (list spec_float))
    (metadatas : list (gmap string value)) (batch_size : Z) : M cluster unit :=
  cleaned_metadatas ← lift (mapM (clean_metadata py str_object) metadatas);
  let payloads := make_payloads texts cleaned_metadatas in
  match batch_size with
  | Z0 => raise (ValueError "range() arg 3 must not be zero")
  | Zneg _ => mret tt
  | Zpos p =>
      upload_batches embeddings payloads (Pos.to_nat p)
        (range_step (length embeddings) (Pos.to_nat p))
  end.

(** The points one call uploads when nothing fails: the record at position
    [j] under id [j]. *)
Definition all_points (embeddings : list (list spec_float))
    (payloads : list (gmap string value)) : list point :=
  imap (fun j '(embedding, payload) => Point (Z.of_nat j) embedding payload)
    (zip embeddings payloads).

(** The batch number [k] of a call, and the collection after the batches
    [ks] are stored. *)
Definition nth_batch (embeddings : list (list spec_float))
    (payloads : list (gmap string value)) (batch_size k : nat) : list point :=
  batch_points embeddings payloads batch_size (k * batch_size).

Definition store_batches (embeddings : list (list spec_float))
    (payloads : list (gmap string value)) (batch_size : nat) (ks : list nat)
    (coll : gmap Z point) : gmap Z point :=
  foldl (fun c k => upsert_points (nth_batch embeddings payloads batch_size k) c)
    coll ks.

(** The two lines [upload_data] prints when batch [k] fails with [e]. *)
Definition failure_report (embeddings : list (list spec_float))
    (payloads : list (gmap string value)) (batch_size k : nat) (e : exn)
  : list string :=
  [ "Error uploading batch " +:+ pretty k +:+ ": " +:+ str_exn e;
    "Problematic batch sample: " +:+
      match nth_batch embeddings payloads batch_size k with
      | p :: _ => str_point p
      | [] => "Empty"
      end ].

End Upload.

(** *** Search *)

(** The dict a search method builds from a hit; [hit.payload["text"]]
    raises [KeyError] when the payload has no text. *)
Definition format_hit (hit : scored_point) : outcome search_result :=
  match hit_payload hit !! "text" with
  | Some text =>
      Returned {| res_text := text;
                  res_metadata := delete "text" (hit_payload hit);
                  res_score := hit_score hit;
                  res_id := hit_id hit |}
  | None => Raised (KeyError "text")
  end.

(** The loop of [semantic_search] over the hits, [filtered_results] being
    the list built so far. *)
Fixpoint filter_hits (threshold : spec_float) (limit : Z)
    (results : list scored_point) (filtered_results : list search_result)
  : outcome (list search_result) :=
  match results with
  | [] => Returned filtered_results
  | hit :: rest =>
      if SFleb threshold (hit_score hit) then
        formatted ← format_hit hit;
        let filtered_results := filtered_results ++ [formatted] in
        if (limit <=? Z.of_nat (length filtered_results))%Z
        then Returned filtered_results
        else filter_hits threshold limit rest filtered_results
      else filter_hits threshold limit rest filtered_results
  end.

(** The keyword arguments [search] passes on. *)
Record kwargs := Kwargs {
  kw_threshold : option spec_float;
  kw_limit : option Z;
  kw_category_filter : option string
}.

(** The default [threshold=0.7] of [semantic_search]. *)
Definition default_threshold : spec_float :=
  Eval cbv in float_of_decimal "0.7".

(** The error the specification calls [InvalidModeError]: the [ValueError]
    that reports a mode that is not recognised. *)
Definition InvalidModeError (mode : string) : exn :=
  ValueError ("Invalid search mode: " +:+ mode +:+ ". Use 'semantic' or 'hybrid'").

Section Search.

(** [self.client.search(query_vector=v, limit=k, with_payload=True)] *)
Variable client_search : list spec_float -> Z -> outcome (list scored_point).

(** [self.client.search(query_vector=v, query_text=q, limit=k, filter=f)] *)
Variable client_search_text :
  list spec_float -> string -> Z -> option string -> outcome (list scored_point).

Definition hybrid_search (query : string) (query_embedding : list spec_float)
    (category_filter : option string) (limit : Z) : outcome (list search_result) :=
  let search_filter :=
    match category_filter with
    | Some "" | None => None
    | Some category => Some category
    end in
  results ← client_search_text query_embedding query limit search_filter;
  mapM format_hit results.

Definition semantic_search (query_embedding : list spec_float)
    (query : option string) (threshold : spec_float) (limit : Z)
  : outcome (list search_result) :=
  results ← client_search query_embedding (limit * 2)%Z;
  filter_hits threshold limit results [].

Definition unexpected_keyword (method name : string) : exn :=
  TypeError ("QdrantVectorStore." +:+ method +:+
             "() got an unexpected keyword argument '" +:+ name +:+ "'").

(** [self.semantic_search(query_embedding=..., query=query, **kwargs)] and
    [self.hybrid_search(query=query, query_embedding=..., **kwargs)]: a
    keyword the method does not take is a [TypeError], one that is not
    given takes the default of the method. *)
Definition semantic_search_kw (query_embedding : list spec_float)
    (query : option string) (kw : kwargs) : outcome (list search_result) :=
  match kw_category_filter kw with
  | Some _ => Raised (unexpected_keyword "semantic_search" "category_filter")
  | None =>
      semantic_search query_embedding query
        (default default_threshold (kw_threshold kw))
        (default 3%Z (kw_limit kw))
  end.

Definition hybrid_search_kw (query : string) (query_embedding : list spec_float)
    (kw : kwargs) : outcome (list search_result) :=
  match kw_threshold kw with
  | Some _ => Raised (unexpected_keyword "hybrid_search" "threshold")
  | None =>
      hybrid_search query query_embedding (kw_category_filter kw)
        (default 5%Z (kw_limit kw))
  end.

Definition search (query_embedding : list spec_float) (query : option string)
    (mode : string) (kw : kwargs) : outcome (list search_result) :=
  if String.eqb mode "semantic" then
    semantic_search_kw query_embedding query kw
  else if String.eqb mode "hybrid" then
    match query with
    | None => Raised (ValueError "Query is required for hybrid search")
    | Some query => hybrid_search_kw query query_embedding kw
    end
  else
    Raised (ValueError ("Invalid search mode: " +:+ mode +:+
                        ". Use 'semantic' or 'hybrid'")).

End Search.

End Qdrant.

(** ** The response pipeline ([src/rag_chain.py]) *)

Module Rag.
Import Py Qdrant.

Record response := Response {
  answer : string;
  sources : list search_result
}.

(** The return statement of [generate_response] a response comes from. *)
Inductive branch := Greeting | Fallback | Answered | Failed.

(** The calls the pipeline makes to its collaborators. *)
Inductive call :=
  | EmbedCall (text : string)
  | SearchCall (query_embedding : list spec_float) (query : option string)
      (mode : string) (kw : kwargs)
  | LlmCall (question context : string).

(** What a run of the pipeline touches: the state of the random generator
    (the number of draws made) and the calls sent to the collaborators. *)
Record world := World {
  draws : nat;
  calls : list call
}.

Definition greeting_welcome : string :=
  "ðŸ›ï¸ Welcome to [Brand] Support! How can I help with:" +:+ nl +:+
     "- Orders" +:+ nl +:+
     "- Returns" +:+ nl +:+
     "- Payments" +:+ nl +:+
     "- Account issues".

Definition greeting_hello : string :=
  "ðŸ‘‹ Hello! I'm your shopping assistant. What can I help you with today?".

Definition greeting_back : string :=
  "ðŸŒŸ Welcome back! Need help with your recent order or account?".

Definition fallback_check : string :=
  "Let me check... I couldn't find exact information, but try:" +:+ nl +:+
     "1. Our help center: [link]" +:+ nl +:+
     "2. Email support@example.com".

Definition fallback_learning : string :=
  "I'm still learning about this. For immediate help:" +:+ nl +:+
     "â€¢ Visit our FAQ" +:+ nl +:+
     "â€¢ Contact live chat".

Definition fallback_topic : string :=
  "This topic isn't in my knowledge base yet. Our team can help at support@example.com".


Definition greeting_responses : list string :=
  [greeting_welcome; greeting_hello; greeting_back].

Definition fallback_responses : list string :=
  [fallback_check; fallback_learning; fallback_topic].

(** The answer of the error boundary. *)
Definition apology (e : exn) : string :=
  "âš ï¸ Sorry, I encountered an error. Please try again later." +:+ nl +:+
  "(Error: " +:+ str_exn e +:+ ")".

Definition greetings : list string :=
  ["hello"; "hi"; "hey"; "greetings";
   "good morning"; "good afternoon"; "good evening";
   "namaste"; "salam"; "hola"; "hi there"; "helloo"].

(** [any(greet in text for greet in greetings)] *)
Definition any_in (phrases : list string) (text : string) : bool :=
  existsb (fun greet => contains greet text) phrases.

(** [sep.join(lines)] *)
Fixpoint join (sep : string) (lines : list string) : string :=
  match lines with
  | [] => ""
  | [line] => line
  | line :: rest => line +:+ sep +:+ join sep rest
  end.

(** The policy constants of the retrieval step. *)
Definition retrieval_threshold : spec_float :=
  Eval cbv in float_of_decimal "0.65".

Definition retrieval_kwargs : kwargs :=
  {| kw_threshold := Some retrieval_threshold;
     kw_limit := Some 3%Z;
     kw_category_filter := None |}.

Section Pipeline.

(** [str.lower], the case mapping of the interpreter; [Py.lower] is its
    restriction to ASCII text. *)
Variable str_lower : string -> string.

Definition _is_greeting (text : string) : bool :=
  let text := strip " ?!.," (str_lower text) in
  any_in greetings text.

(** [random.choice] draws an index below the length of the sequence;
    [randbelow d n] is the index of the draw made after [d] earlier ones. *)
Variable randbelow : nat -> nat -> nat.

(** [self.embedder.generate_embedding] *)
Variable embed_query : string -> outcome (list spec_float).

(** The two search requests of the vector database client. *)
Variable client_search : list spec_float -> Z -> outcome (list scored_point).
Variable client_search_text :
  list spec_float -> string -> Z -> option string -> outcome (list scored_point).

(** [LLMChain(llm, prompt).run({"question": q, "context": c})] *)
Variable llm_chain_run : string -> string -> outcome string.

(** Python's formatting of a float: [format(x, ".0%")] and [str(x)]; and
    [str] of a value that is not a scalar. *)
Variable format_percent : spec_float -> string.
Variable str_float : spec_float -> string.
Variable str_object : value -> string.

(** [str(v)], as an f-string renders a value *)
Definition py_str (v : value) : string :=
  match v with
  | PyNone => "None"
  | PyBool true => "True"
  | PyBool false => "False"
  | PyInt z | NpInt z => pretty z
  | PyFloat f | NpFloat f => str_float f
  | PyStr s => s
  | NpComplex _ _ | PyList _ => str_object v
  end.

Definition random_choice (seq : list string) : M world string := fun w =>
  match seq with
  | [] => (Raised (IndexError "Cannot choose from an empty sequence"), w)
  | first :: _ =>
      (Returned (nth (randbelow (draws w) (length seq) mod length seq) seq first),
       {| draws := S (draws w); calls := calls w |})
  end.

Definition record_call (c : call) : M world unit :=
  modify (fun w => {| draws := draws w; calls := calls w ++ [c] |}).

Definition generate_embedding (text : string) : M world (list spec_float) :=
  record_call (EmbedCall text);;
  lift (embed_query text).

Definition vector_db_search (query_embedding : list spec_float)
    (query : option string) (mode : string) (kw : kwargs)
  : M world (list search_result) :=
  record_call (SearchCall query_embedding query mode kw);;
  lift (search client_search client_search_text query_embedding query mode kw).

Definition _generate_llm_response (query context : string) : M world string :=
  record_call (LlmCall query context);;
  lift (llm_chain_run query context).

Definition metadata_get (res : search_result) (key fallback : string) : string :=
  match res_metadata res !! key with
  | Some v => py_str v
  | None => fallback
  end.

Definition context_line (i : nat) (res : search_result) : string :=
  "MATCH #" +:+ pretty i +:+ " (Relevance: " +:+
    format_percent (res_score res) +:+ "):" +:+ nl +:+
  "QUESTION: " +:+ py_str (res_text res) +:+ nl +:+
  "ANSWER: " +:+ metadata_get res "answer" "No specific answer found" +:+ nl +:+
  "SOURCE: " +:+ metadata_get res "source" "General Knowledge" +:+ nl.

Definition _format_context (results : list search_result) (query : string) : string :=
  join nl (imap (fun i res => context_line (S i) res) results).

(** The body of the [try] of [generate_response]. *)
Definition generate_response_try (query : string) : M world (branch * response) :=
  if _is_greeting query then
    a ← random_choice greeting_responses;
    mret (Greeting, {| answer := a; sources := [] |})
  else
    query_embedding ← generate_embedding query;
    results ← vector_db_search query_embedding (Some query) "semantic"
                retrieval_kwargs;
    match results with
    | [] =>
        a ← random_choice fallback_responses;
        mret (Fallback, {| answer := a; sources := [] |})
    | _ :: _ =>
        let context := _format_context results query in
        response ← _generate_llm_response query context;
        mret (Answered, {| answer := response; sources := results |})
    end.

(** [generate_response]: the response, with the branch it comes from. *)
Definition generate_response (query : string) : M world (branch * response) :=
  try_except (generate_response_try query)
    (fun e => mret (Failed, {| answer := apology e; sources := [] |})).

(** The retrieval step ran and returned [results]. *)
Definition retrieved (query : string) (results : list search_result) : Prop :=
  _is_greeting query = false /\
  exists query_embedding,
    embed_query query = Returned query_embedding /\
    search client_search client_search_text query_embedding (Some query)
      "semantic" retrieval_kwargs = Returned results.

(** A step of the pipeline raises [e] on [query]: the embedding, the
    retrieval, or the language-model call on the context. *)
Inductive step_raises (query : string) (e : exn) : Prop :=
  | embedding_raises :
      _is_greeting query = false ->
      embed_query query = Raised e ->
      step_raises query e
  | retrieval_raises query_embedding :
      _is_greeting query = false ->
      embed_query query = Returned query_embedding ->
      search client_search client_search_text query_embedding (Some query)
        "semantic" retrieval_kwargs = Raised e ->
      step_raises query e
  | generation_raises results :
      retrieved query results ->
      results <> [] ->
      llm_chain_run query (_format_context results query) = Raised e ->
      step_raises query e.

End Pipeline.

End Rag.

(** ** The conversation store ([src/redis_memory.py]) *)

Module Memory.
Import Py.

(** A conversation turn, the dict [add_message] stores. *)
Record turn := Turn {
  timestamp : string;
  user : string;
  assistant : string
}.

(** A string of the session list, given by what [json.loads] makes of it:
    the turn it encodes, or no JSON at all. *)
Inductive document :=
  | Json (t : turn)
  | Malformed (raw : string).

Definition json_loads (d : document) : outcome turn :=
  match d with
  | Json t => Returned t
  | Malformed _ => Raised (ValueError "Expecting value: line 1 column 1 (char 0)")
  end.

(** The Redis server: the lists it holds by key, whether it can be
    reached, and what the client process printed. *)
Record redis := Redis {
  db : gmap string (list document);
  online : bool;
  printed : list string
}.

(** [seq[start:]], for any integer [start] *)
Definition slice_from {A} (start : Z) (seq : list A) : list A :=
  let len := Z.of_nat (length seq) in
  let start := if (start <? 0)%Z then Z.max 0 (len + start) else Z.min start len in
  drop (Z.to_nat start) seq.

(** [self.key = f"ecom_chat:{session_id}"] *)
Definition session_key (session_id : string) : string :=
  "ecom_chat:" +:+ session_id.

(** [self.redis.lrange(key, 0, -1)]: the whole list, empty for a key that
    is not there. *)
Definition redis_lrange_all (key : string) : M redis (list document) := fun r =>
  if online r
  then (Returned (default [] (db r !! key)), r)
  else (Raised (ServiceError "ConnectionError" "Error connecting to Redis"), r).

Definition print_line (line : string) : M redis unit :=
  modify (fun r =>
    {| db := db r; online := online r; printed := printed r ++ [line] |}).

Definition get_history_try (key : string) (limit : option Z) : M redis (list turn) :=
  messages ← redis_lrange_all key;
  history ← lift (mapM json_loads messages);
  mret match limit with
       | Some limit => slice_from (- limit) history
       | None => history
       end.

Definition get_history (key : string) (limit : option Z) : M redis (list turn) :=
  try_except (get_history_try key limit)
    (fun e =>
       print_line ("Error retrieving history: " +:+ str_exn e);;
       mret []).

End Memory.

(** ** Concrete collaborators and inputs

    Small instances of the services and of their data, on which the model
    runs and on which the theorems below are instantiated. *)

Module Examples.
Import Py Qdrant Rag Memory.

Definition score_90 : spec_float := Eval cbv in float_of_decimal "0.9".
Definition score_80 : spec_float := Eval cbv in float_of_decimal "0.8".
Definition score_50 : spec_float := Eval cbv in float_of_decimal "0.5".

Definition return_question : string := "How do I return a defective item?".

Definition faq_payload : gmap string value :=
  {[ "text" := PyStr return_question;
     "category" := PyStr "returns";
     "answer" := PyStr "Send it back within 30 days." ]}.

Definition faq_hits : list scored_point :=
  [ ScoredPoint 0 score_90 faq_payload;
    ScoredPoint 1 score_80 faq_payload;
    ScoredPoint 2 score_50 faq_payload ].

(** A store that ranks [faq_hits] for every query and honours the limit. *)
Definition faq_search (v : list spec_float) (k : Z) : outcome (list scored_point) :=
  Returned (take (Z.to_nat k) faq_hits).

(** A store that answers every request with [faq_hits], whatever the
    limit it is asked for. *)
Definition unbounded_search (v : list spec_float) (k : Z)
  : outcome (list scored_point) :=
  Returned faq_hits.

(** A store with no point at all. *)
Definition empty_search (v : list spec_float) (k : Z) : outcome (list scored_point) :=
  Returned [].

(** The client refuses the keywords of [hybrid_search]. *)
Definition text_search_refused (v : list spec_float) (q : string) (k : Z)
    (f : option string) : outcome (list scored_point) :=
  Raised (ServiceError "AssertionError" "Unknown arguments: ['query_text', 'filter']").

Definition unit_embedding (text : string) : outcome (list spec_float) :=
  Returned [S754_finite false 1 0; S754_zero false].

Definition llm_answers (question context : string) : outcome string :=
  Returned "Send the item back within 30 days.".

Definition llm_down (question context : string) : outcome string :=
  Raised (ServiceError "APITimeoutError" "Request timed out.").

Definition first_index (d n : nat) : nat := 0.

Definition no_format (f : spec_float) : string := "".

Definition no_str (v : value) : string := "".

(** An interpreter for the examples.  It is consulted only on text that is
    not plain and on complex numbers, which the examples do not hold: it
    takes the superscript two for a digit, as [str.isdigit] does, and
    converts none of that text, as [int] and [float] do not convert the
    superscript. *)
Definition superscript_two : string := "²".

Definition example_interpreter : interpreter :=
  {| wide_isdigit := fun s => String.eqb s superscript_two;
     wide_int := fun s =>
       Raised (ValueError ("invalid literal for int() with base 10: '" +:+ s +:+ "'"));
     wide_float := fun s =>
       Raised (ValueError ("could not convert string to float: '" +:+ s +:+ "'"));
     complex_int := fun re im =>
       Raised (TypeError "int() argument must be a string, a bytes-like object or a real number, not 'complex'") |}.

Definition fresh_world : world := {| draws := 0; calls := [] |}.

(** The result [semantic_search] builds from a hit of [faq_hits]. *)
Definition faq_result (id : Z) (score : spec_float) : search_result :=
  {| res_text := PyStr return_question;
     res_metadata := delete "text" faq_payload;
     res_score := score;
     res_id := id |}.

(** Three records uploaded in batches of two, the second request failing. *)
Definition three_texts : list string := ["a"; "b"; "c"].

Definition three_embeddings : list (list spec_float) :=
  [[score_90]; [score_80]; [score_50]].

Definition three_metadatas : list (gmap string value) :=
  [ {[ "category" := PyStr "returns" ]};
    {[ "category" := PyStr "orders" ]};
    {[ "category" := PyStr "payments" ]} ].

Definition bad_gateway : exn := ServiceError "UnexpectedResponse" "502 Bad Gateway".

Definition second_request_fails (n : nat) (points : list point) : option (exn * nat) :=
  if Nat.eqb n 1 then Some (bad_gateway, 0) else None.

Definition no_fault (n : nat) (points : list point) : option (exn * nat) := None.

Definition point_id_str (p : point) : string := pretty (pt_id p).

Definition empty_cluster : cluster :=
  {| collection := ∅; requests := []; stdout := [] |}.

(** A session with two turns. *)
Definition two_turns : list turn :=
  [ Turn "2025-01-01T10:00:00" "Hi" "Hello!";
    Turn "2025-01-01T10:01:00" "Where is my order?" "It ships today." ].

Definition session_redis : redis :=
  {| db := {[ session_key "default" := Json <$> two_turns ]};
     online := true;
     printed := [] |}.

End Examples.

(** ** The other operations of the conversation store
       ([src/redis_memory.py])

    [add_message], [clear_history] and [get_last_message] also write to the
    server and set the expiry of a key, so they run on a [server]: the
    [redis] state above together with the time to live of each key, in
    seconds. *)

Module Session.
Import Py Memory.

Record server := Server {
  redis_of : redis;
  expiry : gmap string Z
}.

(** A computation on the [redis] state, run on the server. *)
Definition on_redis {A} (m : M redis A) : M server A := fun s =>
  let '(o, r) := m (redis_of s) in
  (o, {| redis_of := r; expiry := expiry s |}).

Definition connection_error : exn :=
  ServiceError "ConnectionError" "Error connecting to Redis".

Definition set_db (db' : gmap string (list document)) (r : redis) : redis :=
  {| db := db'; online := online r; printed := printed r |}.

(** [self.redis.ping()] *)
Definition redis_ping : M server unit := fun s =>
  if online (redis_of s) then (Returned tt, s) else (Raised connection_error, s).

(** [self.redis.rpush(key, doc)]: appends to the list of the key, which it
    creates when there is none, and returns the new length. *)
Definition redis_rpush (key : string) (doc : document) : M server Z := fun s =>
  if online (redis_of s) then
    let l := default [] (db (redis_of s) !! key) ++ [doc] in
    (Returned (Z.of_nat (length l)),
     {| redis_of := set_db (<[key := l]> (db (redis_of s))) (redis_of s);
        expiry := expiry s |})
  else (Raised connection_error, s).

(** [self.redis.expire(key, seconds)]: sets the time to live of a key that
    exists. *)
Definition redis_expire (key : string) (seconds : Z) : M server bool := fun s =>
  if online (redis_of s) then
    match db (redis_of s) !! key with
    | Some _ =>
        (Returned true,
         {| redis_of := redis_of s; expiry := <[key := seconds]> (expiry s) |})
    | None => (Returned false, s)
    end
  else (Raised connection_error, s).

(** [self.redis.delete(key)]: the number of keys removed. *)
Definition redis_delete (key : string) : M server Z := fun s =>
  if online (redis_of s) then
    match db (redis_of s) !! key with
    | Some _ =>
        (Returned 1%Z,
         {| redis_of := set_db (delete key (db (redis_of s))) (redis_of s);
            expiry := delete key (expiry s) |})
    | None => (Returned 0%Z, s)
    end
  else (Raised connection_error, s).

(** [self.redis.lindex(key, -1)]: the last string of the list, if any. *)
Definition redis_lindex_last (key : string) : M server (option document) := fun s =>
  if online (redis_of s)
  then (Returned (last (default [] (db (redis_of s) !! key))), s)
  else (Raised connection_error, s).

(** [RedisMemory.__init__]: the key of the session. *)
Definition connect (session_id : string) : M server string :=
  if String.eqb session_id "" then
    raise (ValueError "Session ID must be a non-empty string")
  else
    try_except redis_ping
      (fun e => raise (ServiceError "ConnectionError"
                         ("Failed to connect to Redis: " +:+ str_exn e)));;
    mret (session_key session_id).

(** [add_message]; [now] is what [datetime.now().isoformat()] returns. *)
Definition add_message (now : string) (key user_message assistant_response : string)
  : M server bool :=
  if String.eqb user_message "" || String.eqb assistant_response "" then
    raise (ValueError "Messages cannot be empty")
  else
    try_except
      (let message := {| timestamp := now; user := user_message;
                         assistant := assistant_response |} in
       redis_rpush key (Json message);;
       redis_expire key 604800;;
       mret true)
      (fun e =>
         on_redis (print_line ("Error saving message: " +:+ str_exn e));;
         mret false).

(** [get_history], on the server. *)
Definition get_history (key : string) (limit : option Z) : M server (list turn) :=
  on_redis (Memory.get_history key limit).

Definition clear_history (key : string) : M server bool :=
  try_except
    (removed ← redis_delete key;
     mret (0 <? removed)%Z)
    (fun e =>
       on_redis (print_line ("Error clearing history: " +:+ str_exn e));;
       mret false).

(** [json.loads(last_msg) if last_msg else None]: an empty string is no
    message. *)
Definition get_last_message (key : string) : M server (option turn) :=
  try_except
    (last_msg ← redis_lindex_last key;
     match last_msg with
     | None | Some (Malformed "") => mret None
     | Some doc => t ← lift (json_loads doc); mret (Some t)
     end)
    (fun e =>
       on_redis (print_line ("Error getting last message: " +:+ str_exn e));;
       mret None).

End Session.

(** ** The collection itself ([collection_exists], [create_collection])

    [schema] is the vector size of the collection when it exists. *)

Module Admin.
Import Py Qdrant.

Record service := Service {
  schema : option Z;
  cluster_of : cluster
}.

Definition not_found : exn :=
  ServiceError "UnexpectedResponse" "404 (Not Found)".

Section Admin.

(** The service may fail a request whatever the state of the collection:
    [probe_fault] is the fate of [get_collection], [recreate_fault] that of
    [recreate_collection]. *)
Variable probe_fault : option exn.
Variable recreate_fault : option exn.

(** [self.client.get_collection(self.collection_name)] *)
Definition client_get_collection : M service unit := fun s =>
  match probe_fault with
  | Some e => (Raised e, s)
  | None =>
      match schema s with
      | Some _ => (Returned tt, s)
      | None => (Raised not_found, s)
      end
  end.

(** [self.client.recreate_collection(...)]: drops the collection if there is
    one and creates an empty one. *)
Definition client_recreate_collection (vector_size : Z) : M service unit := fun s =>
  match recreate_fault with
  | Some e => (Raised e, s)
  | None =>
      (Returned tt,
       {| schema := Some vector_size;
          cluster_of := {| collection := ∅;
                           requests := requests (cluster_of s);
                           stdout := stdout (cluster_of s) |} |})
  end.

Definition collection_exists : M service bool :=
  try_except (client_get_collection;; mret true) (fun _ => mret false).

Definition create_collection (vector_size : Z) : M service unit :=
  client_recreate_collection vector_size.

(** [if not vector_db.collection_exists(): vector_db.create_collection()],
    the first step of [init_components] in [main.py]. *)
Definition ensure_collection : M service unit :=
  collection_exists ≫= fun found : bool =>
  if found then mret tt else create_collection 1536.

End Admin.

End Admin.

(** ** Chunking of the FAQ data ([src/data_processing.py]) *)

Module Ingest.
Import Py Qdrant.

Record chunk := Chunk {
  chunk_text : string;
  chunk_metadata : gmap string value
}.

(** [item[key]] *)
Definition getitem (item : gmap string value) (key : string) : outcome value :=
  match item !! key with
  | Some v => Returned v
  | None => Raised (KeyError key)
  end.

Section ChunkData.

(** [text_splitter.split_text], for the chunk size and overlap of the call. *)
Variable split_text : string -> list string.

(** [str] of a float and of a value that is not a scalar, as in the
    pipeline. *)
Variable str_float : spec_float -> string.
Variable str_object : value -> string.

(** The body of the outer loop of [chunk_data]: the chunks of one item. *)
Definition chunk_item (item : gmap string value) : outcome (list chunk) :=
  question ← getitem item "Question";
  answer ← getitem item "Answer";
  let text := "Question: " +:+ Rag.py_str str_float str_object question +:+ nl +:+
              "Answer: " +:+ Rag.py_str str_float str_object answer in
  let splits := split_text text in
  match splits with
  | [] => Returned []
  | _ :: _ =>
      category ← getitem item "Category";
      Returned
        (imap (fun i split =>
                 {| chunk_text := split;
                    chunk_metadata :=
                      {[ "category" := category;
                         "original_question" := question;
                         "chunk_num" := PyInt (Z.of_nat i + 1);
                         "total_chunks" := PyInt (Z.of_nat (length splits)) ]} |})
              splits)
  end.

Definition chunk_data (data : list (gmap string value)) : outcome (list chunk) :=
  per_item ← mapM chunk_item data;
  Returned (concat per_item).

End ChunkData.

End Ingest.

(** ** Further concrete inputs *)

Module MoreExamples.
Import Py Qdrant Rag Memory Session Admin Ingest.

Definition session_server : server :=
  {| redis_of := Examples.session_redis; expiry := ∅ |}.

Definition offline_server : server :=
  {| redis_of := {| db := db Examples.session_redis; online := false; printed := [] |};
     expiry := ∅ |}.

Definition last_turn : turn :=
  Turn "2025-01-01T10:01:00" "Where is my order?" "It ships today.".

(** A session whose first string is not JSON. *)
Definition corrupt_server : server :=
  {| redis_of :=
       {| db := {[ session_key "default" := [Malformed "{oops"; Json last_turn] ]};
          online := true;
          printed := [] |};
     expiry := ∅ |}.

(** A store that answers the text search with [faq_hits]. *)
Definition faq_text_search (v : list spec_float) (q : string) (k : Z)
    (f : option string) : outcome (list scored_point) :=
  Returned (take (Z.to_nat k) Examples.faq_hits).

(** Metadata with a ["text"] key of its own. *)
Definition titled_metadata : gmap string value :=
  {[ "text" := PyStr "42"; "category" := PyStr "orders" ]}.

Definition populated_service : service :=
  {| schema := Some 1536%Z;
     cluster_of :=
       {| collection := {[ 0%Z := Point 0 [Examples.score_90] Examples.faq_payload ]};
          requests := [];
          stdout := [] |} |}.

(** One row of the FAQ table, and a row without its question. *)
Definition faq_row : gmap string value :=
  {[ "Question" := PyStr "How do I return an item?";
     "Answer" := PyStr "Send it back within 30 days.";
     "Category" := PyStr "returns" ]}.

Definition broken_row : gmap string value :=
  {[ "Answer" := PyStr "Send it back within 30 days.";
     "Category" := PyStr "returns" ]}.

(** A splitter that cuts every text in two. *)
Definition split_in_two (text : string) : list string :=
  [ String.substring 0 (String.length text / 2) text;
    String.substring (String.length text / 2) (String.length text) text ].

End MoreExamples.

(** * Properties of the string operations *)

Module PyFacts.
Import Py.

Lemma prefix_empty_r (needle : string) :
  needle <> "" -> String.prefix needle "" = false.
Proof. by destruct needle. Qed.

Lemma last_kept_nonempty (chars phrase : string) :
  last_kept chars phrase = true -> phrase <> "".
Proof. by destruct phrase. Qed.

Lemma last_kept_tail (chars : string) (c : ascii) (phrase : string) :
  last_kept chars (String c phrase) = true ->
  phrase = "" /\ mem_char c chars = false \/
  phrase <> "" /\ last_kept chars phrase = true.
Proof.
  simpl. destruct phrase as [|d phrase].
  - intros H. left. split; [done|]. by apply negb_true_iff.
  - intros H. right. done.
Qed.

(** Stripping on the left keeps every occurrence of a phrase whose first
    character is kept. *)
Lemma contains_lstrip (chars needle s : string) :
  first_kept chars needle = true ->
  contains needle (lstrip chars s) = contains needle s.
Proof.
  intros Hfirst. induction s as [|d r IH]; [done|].
  cbn [lstrip]. destruct (mem_char d chars) eqn:Hd; [|done].
  rewrite IH. cbn [contains].
  destruct needle as [|c needle]; [done|]. simpl in Hfirst.
  cbn [String.prefix]. destruct (ascii_dec c d) as [->|_]; [|done].
  by rewrite Hd in Hfirst.
Qed.

Lemma rstrip_cons (chars : string) (d : ascii) (r : string) :
  rstrip chars (String d r) =
    match rstrip chars r with
    | "" => if mem_char d chars then "" else String d ""
    | r' => String d r'
    end.
Proof. reflexivity. Qed.

(** Stripping on the right changes no test of a prefix whose last
    character is kept. *)
Lemma prefix_rstrip (chars : string) (s : string) : forall needle,
  last_kept chars needle = true ->
  String.prefix needle (rstrip chars s) = String.prefix needle s.
Proof.
  induction s as [|d r IH]; intros needle Hlast; [done|].
  destruct needle as [|c needle]; [done|].
  assert (Htail : String.prefix needle (rstrip chars r) = String.prefix needle r).
  { destruct (last_kept_tail _ _ _ Hlast) as [[-> _]|[_ Hn]].
    - by destruct (rstrip chars r), r.
    - by apply IH. }
  rewrite rstrip_cons.
  destruct (rstrip chars r) as [|e r'] eqn:Hr.
  - destruct (mem_char d chars) eqn:Hd.
    + cbn [String.prefix]. destruct (ascii_dec c d) as [->|_]; [|done].
      destruct (last_kept_tail _ _ _ Hlast) as [[_ Hc]|[Hne _]].
      * congruence.
      * rewrite <- Htail. symmetry. by apply prefix_empty_r.
    + cbn [String.prefix]. destruct (ascii_dec c d); [|done]. exact Htail.
  - cbn [String.prefix]. destruct (ascii_dec c d); [|done]. exact Htail.
Qed.

Lemma contains_rstrip (chars needle s : string) :
  last_kept chars needle = true ->
  contains needle (rstrip chars s) = contains needle s.
Proof.
  intros Hlast. induction s as [|d r IH]; [done|].
  cbn [contains]. rewrite <- IH, <- (prefix_rstrip chars (String d r)) by done.
  rewrite rstrip_cons.
  destruct (rstrip chars r) as [|e r'] eqn:Hr; [|done].
  destruct (mem_char d chars); [|done].
  cbn [contains]. by destruct (String.prefix needle "").
Qed.

Lemma contains_strip (chars needle s : string) :
  first_kept chars needle = true ->
  last_kept chars needle = true ->
  contains needle (strip chars s) = contains needle s.
Proof.
  intros Hfirst Hlast. unfold strip.
  by rewrite contains_rstrip, contains_lstrip.
Qed.

Lemma contains_cons_false (c d : ascii) (r : string) :
  contains (String c "") (String d r) = false ->
  Ascii.eqb d c = false /\ contains (String c "") r = false.
Proof.
  cbn [contains String.prefix].
  destruct (ascii_dec c d) as [->|Hne].
  - by destruct r.
  - intros H. split; [|exact H]. apply Ascii.eqb_neq. congruence.
Qed.

Lemma remove_first_absent (c : ascii) (s : string) :
  contains (String c "") s = false -> remove_first c s = s.
Proof.
  induction s as [|d r IH]; [done|].
  intros H. apply contains_cons_false in H as [Hd Hr].
  simpl. rewrite Hd. by rewrite IH.
Qed.

Lemma plain_text_remove_first (c : ascii) (s : string) :
  plain_text s = true -> plain_text (remove_first c s) = true.
Proof.
  unfold plain_text. intros H. apply andb_true_iff in H as [Hascii Hlen].
  apply andb_true_iff. split.
  - clear Hlen. induction s as [|d r IH]; [done|]. simpl in *.
    apply andb_true_iff in Hascii as [Hd Hr].
    destruct (Ascii.eqb d c); [done|]. simpl. rewrite Hd. by apply IH.
  - apply Nat.leb_le in Hlen. apply Nat.leb_le.
    assert (String.length (remove_first c s) <= String.length s); [|lia].
    clear. induction s as [|d r IH]; [done|]. simpl.
    destruct (Ascii.eqb d c); simpl; lia.
Qed.

End PyFacts.

(** * Properties of the vector store adapter *)

Module QdrantFacts.
Import Py Qdrant.

(** ** Comparison of floats *)

Lemma SFcompare_Lt_swap (x y : spec_float) :
  SFcompare x y = Some Lt -> SFcompare y x = Some Gt.
Proof.
  destruct x as [sx|sx| |sx mx ex], y as [sy|sy| |sy my ey]; simpl;
    try discriminate; try (destruct sx; discriminate);
    try (destruct sy; discriminate);
    try (destruct sx, sy; (discriminate || reflexivity)).
  assert (Hm : Pos.compare_cont Eq my mx = CompOpp (Pos.compare_cont Eq mx my))
    by (symmetry; apply (Pos.compare_cont_antisym mx my Eq)).
  destruct sx, sy; try discriminate; try reflexivity;
    rewrite (Z.compare_antisym ex ey), Hm;
    destruct (ex ?= ey)%Z; simpl; try discriminate; try reflexivity;
    destruct (Pos.compare_cont Eq mx my); simpl; congruence.
Qed.

Lemma SFleb_SFltb (t s : spec_float) : SFleb t s = true -> SFltb s t = false.
Proof.
  unfold SFleb, SFltb. intros H.
  destruct (SFcompare s t) as [[| |]|] eqn:Hst; try reflexivity.
  apply SFcompare_Lt_swap in Hst. rewrite Hst in H. discriminate.
Qed.

(** ** [clean_metadata] *)

Section CleanMetadataFacts.

Variable py : interpreter.
Variable str_object : value -> string.

Local Abbreviation clean_value := (clean_value py str_object).
Local Abbreviation clean_metadata := (clean_metadata py str_object).
Local Abbreviation convertible := (convertible py).
Local Abbreviation cleaned_as := (cleaned_as py str_object).

(** One more turn of the loop. *)
Lemma clean_metadata_insert (metadata : gmap string value) (key : string)
    (v : value) :
  metadata !! key = None ->
  map_first_key (<[key := v]> metadata) key ->
  clean_metadata (<[key := v]> metadata) =
    (cleaned ← clean_metadata metadata;
     v' ← clean_value v;
     mret (<[key := v']> cleaned)).
Proof.
  intros Hkey Hfirst. unfold Qdrant.clean_metadata.
  by rewrite map_fold_insert_first_key.
Qed.

(** When the loop ends, each key holds what its value was cleaned to. *)
Lemma clean_metadata_lookup (metadata cleaned : gmap string value) :
  clean_metadata metadata = Returned cleaned ->
  forall key,
    option_Forall2 (fun v v' => clean_value v = Returned v')
      (metadata !! key) (cleaned !! key).
Proof.
  revert cleaned.
  induction metadata as [|k v m Hk Hfirst IH] using map_first_key_ind;
    intros cleaned.
  - unfold Qdrant.clean_metadata. rewrite map_fold_empty.
    intros [= <-] key. rewrite !lookup_empty. constructor.
  - rewrite clean_metadata_insert by done.
    destruct (clean_metadata m) as [cleaned'|e]; [|discriminate].
    simpl. destruct (clean_value v) as [v'|e] eqn:Hv; [|discriminate].
    simpl. intros [= <-] key.
    destruct (decide (key = k)) as [->|Hne].
    + rewrite !lookup_insert_eq. by constructor.
    + rewrite !lookup_insert_ne by done. by apply IH.
Qed.

(** The loop raises only the error of a value it could not convert. *)
Lemma clean_metadata_raises (metadata : gmap string value) (e : exn) :
  clean_metadata metadata = Raised e ->
  exists key v, metadata !! key = Some v /\ clean_value v = Raised e.
Proof.
  induction metadata as [|k v m Hk Hfirst IH] using map_first_key_ind.
  - unfold Qdrant.clean_metadata. by rewrite map_fold_empty.
  - rewrite clean_metadata_insert by done.
    destruct (clean_metadata m) as [cleaned'|e'].
    + simpl. destruct (clean_value v) as [v'|e'] eqn:Hv; [discriminate|].
      simpl. intros [= <-]. exists k, v. by rewrite lookup_insert_eq.
    + simpl. intros [= <-]. destruct IH as (key & v' & Hkey & Hv'); [done|].
      exists key, v'. split; [|done].
      rewrite lookup_insert_ne; [done|]. intros <-. congruence.
Qed.

Lemma clean_metadata_returns (metadata : gmap string value) :
  (forall key v, metadata !! key = Some v -> exists v', clean_value v = Returned v') ->
  exists cleaned, clean_metadata metadata = Returned cleaned.
Proof.
  intros Hall. destruct (clean_metadata metadata) as [cleaned|e] eqn:Hrun.
  - by exists cleaned.
  - destruct (clean_metadata_raises _ _ Hrun) as (key & v & Hkey & Hv).
    destruct (Hall _ _ Hkey) as [v' Hv']. congruence.
Qed.

Lemma clean_value_convertible (v : value) :
  convertible v <-> exists v', clean_value v = Returned v'.
Proof.
  destruct v; simpl; try (split; [by eexists | done]).
  - destruct (is_numeric_string py s); [|split; [by eexists | done]].
    destruct (contains "." s).
    + split.
      * intros [f ->]; [done|]. by eexists.
      * intros [v' Hv'] _. destruct (float_of_str py s); [by eexists | done].
    + split.
      * intros [z ->]; [done|]. by eexists.
      * intros [v' Hv'] _. destruct (int_of_str py s); [by eexists | done].
  - split.
    + intros [z ->]. by eexists.
    + intros [v' Hv']. destruct (complex_int py re im); [by eexists | done].
Qed.

Lemma clean_value_scalar (v v' : value) :
  clean_value v = Returned v' -> is_scalar v' = true.
Proof.
  destruct v; simpl; try (by intros [= <-]).
  - destruct (is_numeric_string py s); [|by intros [= <-]].
    destruct (contains "." s).
    + destruct (float_of_str py s); [|done]. by intros [= <-].
    + destruct (int_of_str py s); [|done]. by intros [= <-].
  - destruct (complex_int py re im); [|done]. by intros [= <-].
Qed.

Lemma clean_value_cleaned_as (v v' : value) :
  clean_value v = Returned v' -> cleaned_as v v'.
Proof.
  destruct v; simpl; try (by intros [= <-]).
  - destruct (is_numeric_string py s); [|by intros [= <-]].
    destruct (contains "." s).
    + destruct (float_of_str py s) as [f|]; [|done]. intros [= <-]. by exists f.
    + destruct (int_of_str py s) as [z|]; [|done]. intros [= <-]. by exists z.
  - destruct (complex_int py re im) as [z|]; [|done]. intros [= <-]. by exists z.
Qed.

(** Cleaning plain metadata consults no conversion of the interpreter and
    returns. *)
Lemma clean_value_plain (v : value) :
  plain_value v = true -> exists v', clean_value v = Returned v'.
Proof.
  destruct v; simpl; try discriminate; try (by eexists).
  intros Hplain. unfold is_numeric_string, str_isdigit, float_of_str, int_of_str.
  rewrite Hplain, (PyFacts.plain_text_remove_first _ _ Hplain). simpl.
  destruct (isdigit (remove_first "." s)) eqn:Hdigits; [|by eexists].
  destruct (contains "." s) eqn:Hpoint; [by eexists|].
  rewrite (PyFacts.remove_first_absent _ _ Hpoint) in Hdigits.
  rewrite Hdigits. by eexists.
Qed.

Lemma clean_metadata_plain (metadata : gmap string value) :
  plain_metadata metadata ->
  exists cleaned, clean_metadata metadata = Returned cleaned.
Proof.
  intros Hplain. apply clean_metadata_returns.
  intros key v Hkey. apply clean_value_plain. by apply (Hplain key).
Qed.


End CleanMetadataFacts.



(** ** [upload_data] *)

Section UploadFacts.

Variable py : interpreter.
Variable str_object : value -> string.
Variable str_point : point -> string.
Variable upload_fault : nat -> list point -> option (exn * nat).

Implicit Types (embeddings : list (list spec_float))
  (payloads : list (gmap string value)) (coll : gmap Z point).

Lemma all_points_lookup embeddings payloads (j : nat) :
  all_points embeddings payloads !! j =
    (fun '(embedding, payload) => Point (Z.of_nat j) embedding payload)
      <$> zip embeddings payloads !! j.
Proof. unfold all_points. by rewrite list_lookup_imap. Qed.

Lemma all_points_id embeddings payloads (j : nat) (p : point) :
  all_points embeddings payloads !! j = Some p -> pt_id p = Z.of_nat j.
Proof.
  rewrite all_points_lookup.
  destruct (zip embeddings payloads !! j) as [[e pl]|]; simpl; [|done].
  by intros [= <-].
Qed.

Lemma all_points_length embeddings payloads :
  length (all_points embeddings payloads) = min (length embeddings) (length payloads).
Proof. unfold all_points. by rewrite length_imap, length_zip_with. Qed.

(** A batch is a slice of the points of the call. *)
Lemma batch_points_slice embeddings payloads (batch_size i : nat) :
  batch_points embeddings payloads batch_size i =
    take batch_size (drop i (all_points embeddings payloads)).
Proof.
  apply list_eq. intros k. unfold batch_points.
  rewrite list_lookup_imap.
  rewrite <- zip_with_take, <- zip_with_drop.
  destruct (decide (k < batch_size)) as [Hk|Hk].
  - rewrite !lookup_take_lt by done. rewrite !lookup_drop.
    rewrite all_points_lookup. unfold zip.
    by destruct (zip_with pair embeddings payloads !! (i + k)) as [[e pl]|].
  - by rewrite !lookup_take_ge by lia.
Qed.

Lemma upsert_points_app (l k : list point) coll :
  upsert_points (l ++ k) coll = upsert_points k (upsert_points l coll).
Proof. unfold upsert_points. apply foldl_app. Qed.

(** A point whose id is none of the uploaded ids is left alone. *)
Lemma upsert_points_other (l : list point) coll (z : Z) :
  Forall (fun p => pt_id p <> z) l ->
  upsert_points l coll !! z = coll !! z.
Proof.
  revert coll. induction l as [|p l IH]; intros coll Hl; [done|].
  inversion Hl; subst. simpl. rewrite IH by done.
  by rewrite lookup_insert_ne.
Qed.

(** After the first [n] points of a call are stored, position [j < n] is
    found under id [j]. *)
Lemma upsert_prefix_lookup embeddings payloads (n j : nat) (p : point) coll :
  j < n ->
  all_points embeddings payloads !! j = Some p ->
  upsert_points (take n (all_points embeddings payloads)) coll !! Z.of_nat j = Some p.
Proof.
  induction n as [|n IH]; [lia|]. intros Hj Hp.
  destruct (all_points embeddings payloads !! n) as [q|] eqn:Hq.
  - rewrite (take_S_r _ _ _ Hq), upsert_points_app. simpl.
    rewrite (all_points_id _ _ _ _ Hq).
    destruct (decide (j = n)) as [->|Hne].
    + rewrite lookup_insert_eq. congruence.
    + rewrite lookup_insert_ne by lia. apply IH; [lia|done].
  - apply lookup_ge_None in Hq.
    assert (j < n) by (apply lookup_lt_Some in Hp; lia).
    rewrite take_ge by lia. rewrite <- (take_ge _ n) by done. by apply IH.
Qed.

Lemma upsert_prefix_other embeddings payloads (n : nat) coll (z : Z) :
  (forall j, j < n -> j < length (all_points embeddings payloads) -> z <> Z.of_nat j) ->
  upsert_points (take n (all_points embeddings payloads)) coll !! z = coll !! z.
Proof.
  intros Hz. apply upsert_points_other.
  apply Forall_lookup. intros j p Hp.
  apply lookup_take_Some in Hp as [Hp Hj].
  rewrite (all_points_id _ _ _ _ Hp). intros <-.
  apply (Hz j); [done| |done]. by apply lookup_lt_Some in Hp.
Qed.

(** *** Running the batch loop *)

Section Loop.

Variables (embeddings : list (list spec_float))
  (payloads : list (gmap string value)) (batch_size : nat).

Hypothesis batch_size_pos : 0 < batch_size.

Local Abbreviation nth_batch := (nth_batch embeddings payloads batch_size).
Local Abbreviation store_batches := (store_batches embeddings payloads batch_size).
Local Abbreviation failure_report :=
  (failure_report str_point embeddings payloads batch_size).

Lemma upload_batches_ok (ks : list nat) : forall w,
  (forall j k, ks !! j = Some k ->
     upload_fault (length (requests w) + j) (nth_batch k) = None) ->
  upload_batches str_point upload_fault embeddings payloads batch_size
      ((fun k => k * batch_size) <$> ks) w =
    (Returned tt,
     {| collection := store_batches ks (collection w);
        requests := requests w ++ (nth_batch <$> ks);
        stdout := stdout w |}).
Proof.
  induction ks as [|k ks IH]; intros w Hok.
  - simpl. rewrite app_nil_r. by destruct w.
  - simpl. unfold mbind, M_bind, try_except, client_upload_points.
    fold (nth_batch k).
    pose proof (Hok 0 k eq_refl) as H0. rewrite Nat.add_0_r in H0. rewrite H0.
    rewrite IH.
    + simpl. by rewrite <- app_assoc.
    + intros j k' Hj. simpl. rewrite length_app. simpl.
      replace (length (requests w) + 1 + j) with (length (requests w) + S j) by lia.
      by apply Hok.
Qed.

Lemma upload_batches_fail (ks : list nat) : forall w (k : nat) (rest : list nat)
    (e : exn) (stored : nat),
  (forall j k', ks !! j = Some k' ->
     upload_fault (length (requests w) + j) (nth_batch k') = None) ->
  upload_fault (length (requests w) + length ks) (nth_batch k) = Some (e, stored) ->
  upload_batches str_point upload_fault embeddings payloads batch_size
      ((fun k => k * batch_size) <$> (ks ++ k :: rest)) w =
    (Raised e,
     {| collection :=
          upsert_points (take stored (nth_batch k)) (store_batches ks (collection w));
        requests := requests w ++ (nth_batch <$> ks) ++ [nth_batch k];
        stdout := stdout w ++ failure_report k e |}).
Proof.
  induction ks as [|k0 ks IH]; intros w k rest e stored Hok Hfail.
  - simpl in *. unfold mbind, M_bind, try_except, client_upload_points.
    fold (nth_batch k). rewrite Nat.add_0_r in Hfail. rewrite Hfail.
    unfold report_batch, print, modify, raise, mbind, M_bind. simpl.
    rewrite Nat.div_mul by lia. fold (nth_batch k).
    unfold failure_report. by rewrite <- app_assoc.
  - simpl. unfold mbind, M_bind, try_except, client_upload_points.
    fold (nth_batch k0).
    pose proof (Hok 0 k0 eq_refl) as H0. rewrite Nat.add_0_r in H0. rewrite H0.
    rewrite (IH _ k rest e stored).
    + simpl. by rewrite <- app_assoc.
    + intros j k' Hj. simpl. rewrite length_app. simpl.
      replace (length (requests w) + 1 + j) with (length (requests w) + S j) by lia.
      by apply Hok.
    + simpl. rewrite length_app. simpl.
      replace (length (requests w) + 1 + length ks)
        with (length (requests w) + S (length ks)) by lia.
      exact Hfail.
Qed.

(** The first [k] batches together are the first [k * batch_size] points. *)
Lemma store_batches_prefix (k : nat) coll :
  store_batches (seq 0 k) coll =
    upsert_points (take (k * batch_size) (all_points embeddings payloads)) coll.
Proof.
  induction k as [|k IH]; [done|].
  rewrite seq_S. unfold store_batches in *. rewrite foldl_app. simpl.
  rewrite IH. unfold nth_batch. rewrite batch_points_slice.
  rewrite <- upsert_points_app, take_take_drop.
  f_equal. f_equal. lia.
Qed.

Lemma concat_batches_prefix (k : nat) :
  concat (nth_batch <$> seq 0 k) =
    take (k * batch_size) (all_points embeddings payloads).
Proof.
  induction k as [|k IH]; [done|].
  rewrite seq_S, fmap_app, concat_app, IH. simpl. rewrite app_nil_r.
  unfold nth_batch. rewrite batch_points_slice, take_take_drop.
  f_equal. lia.
Qed.

Lemma range_step_seq (stop : nat) :
  range_step stop batch_size =
    (fun k => k * batch_size) <$> seq 0 ((stop + batch_size - 1) / batch_size).
Proof. reflexivity. Qed.

Lemma batch_count_lt (stop k : nat) :
  k * batch_size < stop -> k < (stop + batch_size - 1) / batch_size.
Proof.
  intros Hk. apply (Nat.div_le_lower_bound _ _ (S k)); lia.
Qed.

Lemma batch_count_covers (stop : nat) :
  stop <= (stop + batch_size - 1) / batch_size * batch_size.
Proof.
  pose proof (Nat.div_mod_eq (stop + batch_size - 1) batch_size) as Hdm.
  pose proof (Nat.mod_upper_bound (stop + batch_size - 1) batch_size) as Hm.
  lia.
Qed.

End Loop.

(** *** A call that succeeds *)

(** The cleaning that opens [upload_data] returns on plain metadata. *)
Lemma plain_metadatas_cleaned (metadatas : list (gmap string value)) :
  Forall plain_metadata metadatas ->
  exists cleaned, mapM (clean_metadata py str_object) metadatas = Returned cleaned.
Proof.
  induction 1 as [|metadata metadatas Hplain _ [cleaned IH]]; [by eexists|].
  destruct (clean_metadata_plain py str_object metadata Hplain) as [c Hc].
  cbn [mapM]. rewrite Hc. simpl. rewrite IH. by eexists.
Qed.

Lemma upload_data_success (texts : list string) embeddings
    (metadatas cleaned : list (gmap string value)) (batch_size : positive)
    (w : cluster) :
  mapM (clean_metadata py str_object) metadatas = Returned cleaned ->
  (forall n points, upload_fault n points = None) ->
  let payloads := make_payloads texts cleaned in
  let size := Pos.to_nat batch_size in
  upload_data py str_object str_point upload_fault texts embeddings metadatas
      (Zpos batch_size) w =
    (Returned tt,
     {| collection := upsert_points (all_points embeddings payloads) (collection w);
        requests := requests w ++
          (nth_batch embeddings payloads size
             <$> seq 0 ((length embeddings + size - 1) / size));
        stdout := stdout w |}).
Proof.
  intros Hclean Hok payloads size.
  unfold upload_data, lift, mbind, M_bind. rewrite Hclean.
  fold payloads. fold size.
  assert (Hsize : 0 < size) by (unfold size; lia).
  rewrite range_step_seq, upload_batches_ok by auto.
  rewrite store_batches_prefix by done.
  rewrite take_ge; [done|].
  rewrite all_points_length.
  pose proof (batch_count_covers size Hsize (length embeddings)). lia.
Qed.

Lemma concat_all_batches embeddings payloads (size : nat) :
  0 < size ->
  concat (nth_batch embeddings payloads size
            <$> seq 0 ((length embeddings + size - 1) / size)) =
    all_points embeddings payloads.
Proof.
  intros Hsize. rewrite concat_batches_prefix by done.
  apply take_ge. rewrite all_points_length.
  pose proof (batch_count_covers size Hsize (length embeddings)). lia.
Qed.

Lemma all_points_lookup_Some embeddings payloads (j : nat)
    (embedding : list spec_float) (payload : gmap string value) :
  embeddings !! j = Some embedding ->
  payloads !! j = Some payload ->
  all_points embeddings payloads !! j = Some (Point (Z.of_nat j) embedding payload).
Proof.
  intros He Hp. rewrite all_points_lookup.
  rewrite lookup_zip_with, He. simpl. by rewrite Hp.
Qed.

Lemma upsert_all_lookup embeddings payloads (j : nat) (p : point) coll :
  all_points embeddings payloads !! j = Some p ->
  upsert_points (all_points embeddings payloads) coll !! Z.of_nat j = Some p.
Proof.
  intros Hp.
  rewrite <- (take_ge (all_points embeddings payloads)
                (S (length (all_points embeddings payloads)))) by lia.
  apply upsert_prefix_lookup; [|done].
  apply lookup_lt_Some in Hp. lia.
Qed.

(** C8. When batch [k] of a call fails, the error reaches the caller after
    the batch index and a sample record are printed; the failing request is
    the last one sent, each earlier batch was sent once, and every point of
    the earlier batches is still in the collection.  The batches are built
    once the metadata are cleaned, to [cleaned]. *)
Theorem upload_data_batch_failure (texts : list string) embeddings
    (metadatas cleaned : list (gmap string value)) (batch_size : positive)
    (k : nat) (e : exn) (stored : nat) (w : cluster) :
  let payloads := make_payloads texts cleaned in
  let size := Pos.to_nat batch_size in
  mapM (clean_metadata py str_object) metadatas = Returned cleaned ->
  k * size < length embeddings ->
  (forall j, j < k ->
     upload_fault (length (requests w) + j)
       (nth_batch embeddings payloads size j) = None) ->
  upload_fault (length (requests w) + k)
    (nth_batch embeddings payloads size k) = Some (e, stored) ->
  exists w',
    upload_data py str_object str_point upload_fault texts embeddings metadatas
      (Zpos batch_size) w = (Raised e, w') /\
    stdout w' = stdout w ++ failure_report str_point embeddings payloads size k e /\
    requests w' =
      requests w ++ (nth_batch embeddings payloads size <$> seq 0 (S k)) /\
    collection w' =
      upsert_points (take stored (nth_batch embeddings payloads size k))
        (upsert_points (take (k * size) (all_points embeddings payloads))
           (collection w)) /\
    (forall j p, j < k * size ->
       all_points embeddings payloads !! j = Some p ->
       collection w' !! Z.of_nat j = Some p).
Proof.
  intros payloads size Hclean Hk Hok Hfail.
  assert (Hsize : 0 < size) by (unfold size; lia).
  pose proof (batch_count_lt size Hsize _ _ Hk) as Hcount.
  eexists. split.
  - unfold upload_data, lift, mbind, M_bind. rewrite Hclean.
    fold payloads. fold size.
    rewrite range_step_seq.
    replace ((length embeddings + size - 1) / size)
      with (k + S ((length embeddings + size - 1) / size - S k)) by lia.
    rewrite seq_app. simpl.
    apply upload_batches_fail; [done| |].
    + intros j k' Hj. apply lookup_seq in Hj as [-> Hj]. by apply Hok.
    + by rewrite length_seq.
  - cbn [stdout requests collection]. rewrite store_batches_prefix by done.
    split; [done|]. split.
    { rewrite seq_S, fmap_app. done. }
    split; [done|].
    intros j p Hj Hp.
    rewrite upsert_points_other; [by apply upsert_prefix_lookup|].
    apply Forall_lookup. intros i q Hq.
    apply lookup_take_Some in Hq as [Hq _].
    unfold nth_batch in Hq. rewrite batch_points_slice in Hq.
    apply lookup_take_Some in Hq as [Hq _].
    rewrite lookup_drop in Hq.
    rewrite (all_points_id _ _ _ _ Hq). lia.
Qed.

(** C10. In every call the record at position [j] is sent and stored under
    id [j], whatever the collection held before; so of two successive calls
    the second one's points replace the first one's under the same ids.
    The records are those of the cleaned metadata of each call. *)
Theorem upload_data_ids_restart (texts1 texts2 : list string)
    (embeddings1 embeddings2 : list (list spec_float))
    (metadatas1 metadatas2 cleaned1 cleaned2 : list (gmap string value))
    (size1 size2 : positive) (w : cluster) :
  (forall n points, upload_fault n points = None) ->
  mapM (clean_metadata py str_object) metadatas1 = Returned cleaned1 ->
  mapM (clean_metadata py str_object) metadatas2 = Returned cleaned2 ->
  let payloads1 := make_payloads texts1 cleaned1 in
  let payloads2 := make_payloads texts2 cleaned2 in
  exists w1 w2,
    upload_data py str_object str_point upload_fault texts1 embeddings1 metadatas1
      (Zpos size1) w = (Returned tt, w1) /\
    upload_data py str_object str_point upload_fault texts2 embeddings2 metadatas2
      (Zpos size2) w1 = (Returned tt, w2) /\
    concat (drop (length (requests w)) (requests w1)) =
      all_points embeddings1 payloads1 /\
    concat (drop (length (requests w1)) (requests w2)) =
      all_points embeddings2 payloads2 /\
    (forall j embedding payload,
       embeddings1 !! j = Some embedding -> payloads1 !! j = Some payload ->
       all_points embeddings1 payloads1 !! j =
         Some (Point (Z.of_nat j) embedding payload) /\
       collection w1 !! Z.of_nat j = Some (Point (Z.of_nat j) embedding payload)) /\
    (forall j embedding payload,
       embeddings2 !! j = Some embedding -> payloads2 !! j = Some payload ->
       all_points embeddings2 payloads2 !! j =
         Some (Point (Z.of_nat j) embedding payload) /\
       collection w2 !! Z.of_nat j = Some (Point (Z.of_nat j) embedding payload)).
Proof.
  intros Hok Hclean1 Hclean2 payloads1 payloads2.
  eexists. eexists.
  split; [by apply upload_data_success|].
  split; [by apply upload_data_success|].
  simpl. fold payloads1. fold payloads2.
  rewrite !drop_app_length'.
  - split; [apply concat_all_batches; lia|].
    split; [apply concat_all_batches; lia|].
    split; intros j embedding payload He Hp;
      (split; [by apply all_points_lookup_Some|]);
      by apply upsert_all_lookup, all_points_lookup_Some.
  - by rewrite length_app, length_fmap, length_seq.
  - done.
Qed.

End UploadFacts.

Lemma three_metadatas_cleaned :
  mapM (clean_metadata Examples.example_interpreter Examples.no_str)
    Examples.three_metadatas = Returned Examples.three_metadatas.
Proof. vm_compute. reflexivity. Qed.

Lemma upload_data_batch_failure_witness :
  exists w',
    upload_data Examples.example_interpreter Examples.no_str Examples.point_id_str
      Examples.second_request_fails
      Examples.three_texts Examples.three_embeddings Examples.three_metadatas 2
      Examples.empty_cluster = (Raised Examples.bad_gateway, w') /\
    stdout w' = ["Error uploading batch 1: 502 Bad Gateway";
                 "Problematic batch sample: 2"] /\
    length (requests w') = 2 /\
    (forall j p, j < 2 ->
       all_points Examples.three_embeddings
         (make_payloads Examples.three_texts Examples.three_metadatas)
         !! j = Some p ->
       collection w' !! Z.of_nat j = Some p).
Proof.
  destruct (upload_data_batch_failure Examples.example_interpreter Examples.no_str
              Examples.point_id_str
              Examples.second_request_fails Examples.three_texts
              Examples.three_embeddings Examples.three_metadatas
              Examples.three_metadatas 2 1
              Examples.bad_gateway 0 Examples.empty_cluster)
    as (w' & Hrun & Hout & Hreq & _ & Hkeep).
  - exact three_metadatas_cleaned.
  - simpl. lia.
  - intros j Hj. destruct j; [reflexivity | lia].
  - reflexivity.
  - exists w'. split; [exact Hrun|].
    split; [rewrite Hout; vm_compute; reflexivity|].
    split; [rewrite Hreq; reflexivity | exact Hkeep].
Defined.

Lemma upload_data_ids_restart_witness :
  exists w1 w2,
    upload_data Examples.example_interpreter Examples.no_str Examples.point_id_str
      Examples.no_fault
      Examples.three_texts Examples.three_embeddings Examples.three_metadatas 2
      Examples.empty_cluster = (Returned tt, w1) /\
    upload_data Examples.example_interpreter Examples.no_str Examples.point_id_str
      Examples.no_fault
      ["d"] [[Examples.score_50]] [∅] 100 w1 = (Returned tt, w2) /\
    pt_vector <$> collection w1 !! 0%Z = Some [Examples.score_90] /\
    pt_vector <$> collection w2 !! 0%Z = Some [Examples.score_50].
Proof.
  destruct (upload_data_ids_restart Examples.example_interpreter Examples.no_str
              Examples.point_id_str
              Examples.no_fault Examples.three_texts ["d"]
              Examples.three_embeddings [[Examples.score_50]]
              Examples.three_metadatas [∅] Examples.three_metadatas [∅]
              2 100 Examples.empty_cluster)
    as (w1 & w2 & Hrun1 & Hrun2 & _ & _ & Hfirst & Hsecond).
  - reflexivity.
  - exact three_metadatas_cleaned.
  - reflexivity.
  - exists w1, w2. split; [exact Hrun1|]. split; [exact Hrun2|]. split.
    + destruct (Hfirst 0 [Examples.score_90]
                  ({[ "category" := PyStr "returns" ]} ∪ {[ "text" := PyStr "a" ]}))
        as [_ Hw1]; [reflexivity | vm_compute; reflexivity |].
      change (Z.of_nat 0) with 0%Z in Hw1. rewrite Hw1. reflexivity.
    + destruct (Hsecond 0 [Examples.score_50] (∅ ∪ {[ "text" := PyStr "d" ]}))
        as [_ Hw2]; [reflexivity | vm_compute; reflexivity |].
      change (Z.of_nat 0) with 0%Z in Hw2. rewrite Hw2. reflexivity.
Defined.

(** ** [semantic_search] *)

Section SemanticSearchFacts.

Variable client_search : list spec_float -> Z -> outcome (list scored_point).

Lemma format_hit_score (hit : scored_point) (r : search_result) :
  format_hit hit = Returned r -> res_score r = hit_score hit.
Proof.
  unfold format_hit. destruct (hit_payload hit !! "text"); [|discriminate].
  intros [= <-]. reflexivity.
Qed.

(** Every result the loop adds passed the test against the threshold. *)
Lemma filter_hits_scores (threshold : spec_float) (limit : Z)
    (results : list scored_point) :
  forall filtered rs,
    filter_hits threshold limit results filtered = Returned rs ->
    Forall (fun r => SFleb threshold (res_score r) = true) filtered ->
    Forall (fun r => SFleb threshold (res_score r) = true) rs.
Proof.
  induction results as [|hit rest IH]; intros filtered rs; simpl.
  - intros [= <-]. auto.
  - destruct (SFleb threshold (hit_score hit)) eqn:Hscore; [|apply IH].
    destruct (format_hit hit) as [r|e] eqn:Hfmt; simpl; [|discriminate].
    intros Hrun Hacc.
    assert (Forall (fun r => SFleb threshold (res_score r) = true) (filtered ++ [r])).
    { apply Forall_app. split; [assumption|].
      constructor; [|constructor].
      by rewrite (format_hit_score _ _ Hfmt). }
    destruct (limit <=? Z.of_nat (length (filtered ++ [r])))%Z.
    + injection Hrun as <-. assumption.
    + eapply IH; eassumption.
Qed.

(** The loop stops as soon as it holds [limit] results. *)
Lemma filter_hits_length (threshold : spec_float) (limit : Z)
    (results : list scored_point) :
  forall filtered rs,
    filter_hits threshold limit results filtered = Returned rs ->
    (Z.of_nat (length filtered) < limit)%Z ->
    (Z.of_nat (length rs) <= limit)%Z.
Proof.
  induction results as [|hit rest IH]; intros filtered rs; simpl.
  - intros [= <-]. lia.
  - destruct (SFleb threshold (hit_score hit)); [|apply IH].
    destruct (format_hit hit) as [r|e]; simpl; [|discriminate].
    intros Hrun Hlen.
    destruct (limit <=? Z.of_nat (length (filtered ++ [r])))%Z eqn:Hfull.
    + injection Hrun as <-. rewrite length_app in *. simpl in *. lia.
    + apply (IH _ _ Hrun). lia.
Qed.

(** The loop passes over the hits below the threshold. *)
Lemma filter_hits_skip (threshold : spec_float) (limit : Z)
    (skipped rest : list scored_point) (filtered : list search_result) :
  Forall (fun hit => SFleb threshold (hit_score hit) = false) skipped ->
  filter_hits threshold limit (skipped ++ rest) filtered =
    filter_hits threshold limit rest filtered.
Proof.
  induction 1 as [|hit skipped Hscore _ IH]; [done|].
  simpl. by rewrite Hscore.
Qed.


(** The search returns whenever the store does and every hit carries a
    text. *)
Lemma format_hit_returns (hit : scored_point) :
  is_Some (hit_payload hit !! "text") ->
  exists r, format_hit hit = Returned r.
Proof. intros [text Htext]. unfold format_hit. rewrite Htext. by eexists. Qed.

Lemma mapM_format_hit_returns (results : list scored_point) :
  Forall (fun hit => is_Some (hit_payload hit !! "text")) results ->
  exists formatted, mapM format_hit results = Returned formatted.
Proof.
  induction 1 as [|hit rest Htext _ [formatted IH]]; [by eexists|].
  destruct (format_hit_returns hit Htext) as [r Hr].
  cbn [mapM]. rewrite Hr. simpl. rewrite IH. by eexists.
Qed.

(** The loop returns the first [limit] hits that reach the threshold, in
    the order of the store. *)
Lemma filter_hits_first_survivors (threshold : spec_float) (limit : Z)
    (results : list scored_point) :
  Forall (fun hit => is_Some (hit_payload hit !! "text")) results ->
  forall filtered, (Z.of_nat (length filtered) < limit)%Z ->
  exists survivors,
    mapM format_hit
      (List.filter (fun hit => SFleb threshold (hit_score hit)) results) =
      Returned survivors /\
    filter_hits threshold limit results filtered =
      Returned (take (Z.to_nat limit) (filtered ++ survivors)).
Proof.
  induction 1 as [|hit rest Htext Hrest IH]; intros filtered Hlen.
  - exists []. split; [done|]. simpl.
    rewrite app_nil_r, take_ge by lia. done.
  - simpl. destruct (SFleb threshold (hit_score hit)) eqn:Hscore; [|by apply IH].
    destruct (format_hit_returns hit Htext) as [r Hr].
    cbn [mapM]. rewrite Hr. simpl.
    destruct (limit <=? Z.of_nat (length (filtered ++ [r])))%Z eqn:Hfull.
    + destruct (mapM_format_hit_returns
                  (List.filter (fun hit => SFleb threshold (hit_score hit)) rest))
        as [survivors Hsurv].
      { apply Forall_forall. intros h Hh.
        apply list_elem_of_In, filter_In in Hh as [Hh _].
        rewrite Forall_forall in Hrest. by apply Hrest, list_elem_of_In. }
      exists (r :: survivors). rewrite Hsurv. split; [done|].
      replace (filtered ++ r :: survivors) with ((filtered ++ [r]) ++ survivors)
        by (by rewrite <- app_assoc).
      f_equal. symmetry. apply take_app_length'.
      apply Z.leb_le in Hfull. rewrite length_app in *. simpl in *. lia.
    + destruct (IH (filtered ++ [r])) as (survivors & Hsurv & Hrun).
      { by apply Z.leb_gt in Hfull. }
      exists (r :: survivors). rewrite Hsurv. split; [done|].
      rewrite Hrun. by rewrite <- app_assoc.
Qed.

Lemma semantic_search_returns (query_embedding : list spec_float)
    (query : option string) (t : spec_float) (n : Z) (hits : list scored_point) :
  (0 < n)%Z ->
  client_search query_embedding (n * 2)%Z = Returned hits ->
  Forall (fun hit => is_Some (hit_payload hit !! "text")) hits ->
  exists survivors,
    mapM format_hit (List.filter (fun hit => SFleb t (hit_score hit)) hits) =
      Returned survivors /\
    semantic_search client_search query_embedding query t n =
      Returned (take (Z.to_nat n) survivors).
Proof.
  intros Hn Hstore Htext. unfold semantic_search. rewrite Hstore. simpl.
  destruct (filter_hits_first_survivors t n hits Htext []) as (s & Hs & Hrun);
    [simpl; lia|].
  by exists s.
Qed.

End SemanticSearchFacts.


(** ** [search] *)

Section SearchFacts.

Variable client_search : list spec_float -> Z -> outcome (list scored_point).
Variable client_search_text :
  list spec_float -> string -> Z -> option string -> outcome (list scored_point).

Local Abbreviation search := (search client_search client_search_text).

(** C6. [search] raises the invalid-mode error for every mode other than
    ["semantic"] and ["hybrid"], and an error for ["hybrid"] without a query
    text; for ["semantic"], and for ["hybrid"] with a query text, it raises
    nothing of its own: its outcome is that of the method it routes to. *)
Theorem search_mode_dispatch (query_embedding : list spec_float)
    (query : option string) (mode : string) (kw : kwargs) :
  (mode <> "semantic" -> mode <> "hybrid" ->
     search query_embedding query mode kw = Raised (InvalidModeError mode)) /\
  (mode = "hybrid" -> query = None ->
     search query_embedding query mode kw =
       Raised (ValueError "Query is required for hybrid search")) /\
  (mode = "semantic" ->
     search query_embedding query mode kw =
       semantic_search_kw client_search query_embedding query kw) /\
  (forall text, mode = "hybrid" -> query = Some text ->
     search query_embedding query mode kw =
       hybrid_search_kw client_search_text text query_embedding kw).
Proof.
  unfold Qdrant.search. repeat split.
  - intros Hs Hh.
    apply String.eqb_neq in Hs, Hh. by rewrite Hs, Hh.
  - by intros -> ->.
  - by intros ->.
  - by intros text -> ->.
Qed.

End SearchFacts.

Lemma search_mode_dispatch_witness :
  Qdrant.search Examples.faq_search Examples.text_search_refused [] None "fuzzy"
    Rag.retrieval_kwargs = Raised (InvalidModeError "fuzzy").
Proof.
  apply (search_mode_dispatch Examples.faq_search Examples.text_search_refused
           [] None "fuzzy" Rag.retrieval_kwargs); discriminate.
Defined.

End QdrantFacts.

(** * Properties of the response pipeline *)

Module RagFacts.
Import Py Qdrant Rag.

Section PipelineFacts.

Variable str_lower : string -> string.
Variable randbelow : nat -> nat -> nat.
Variable embed_query : string -> outcome (list spec_float).
Variable client_search : list spec_float -> Z -> outcome (list scored_point).
Variable client_search_text :
  list spec_float -> string -> Z -> option string -> outcome (list scored_point).
Variable llm_chain_run : string -> string -> outcome string.
Variable format_percent : spec_float -> string.
Variable str_float : spec_float -> string.
Variable str_object : value -> string.

Local Abbreviation _is_greeting := (_is_greeting str_lower).
Local Abbreviation generate_response :=
  (generate_response str_lower randbelow embed_query client_search
     client_search_text llm_chain_run format_percent str_float str_object).
Local Abbreviation generate_response_try :=
  (generate_response_try str_lower randbelow embed_query client_search
     client_search_text llm_chain_run format_percent str_float str_object).
Local Abbreviation _format_context :=
  (_format_context format_percent str_float str_object).
Local Abbreviation retrieval query_embedding query :=
  (search client_search client_search_text query_embedding (Some query)
     "semantic" retrieval_kwargs).
Local Abbreviation retrieved :=
  (retrieved str_lower embed_query client_search client_search_text).
Local Abbreviation step_raises :=
  (step_raises str_lower embed_query client_search client_search_text
     llm_chain_run format_percent str_float str_object).

(** [_is_greeting] is the substring test of the claim. *)
Lemma is_greeting_iff (query : string) :
  _is_greeting query = true <->
  exists greet, In greet greetings /\
    contains greet (strip " ?!.," (str_lower query)) = true.
Proof. unfold Rag._is_greeting, any_in. apply existsb_exists. Qed.

(** No greeting phrase starts or ends with a stripped character, so the
    stripping changes nothing: a phrase is found in the stripped text
    exactly when it is found in the lowercased text. *)
Lemma is_greeting_strip_irrelevant (query : string) :
  _is_greeting query = any_in greetings (str_lower query).
Proof.
  unfold Rag._is_greeting, any_in, greetings. cbn [existsb].
  by rewrite !PyFacts.contains_strip by reflexivity.
Qed.

(** [random.choice] returns an element of a sequence that is not empty and
    calls no collaborator. *)
Lemma random_choice_elem (seq : list string) (w : world) :
  seq <> [] ->
  exists a, In a seq /\
    random_choice randbelow seq w =
      (Returned a, {| draws := S (draws w); calls := calls w |}).
Proof.
  destruct seq as [|first rest]; [done|]. intros _.
  eexists. split; [|reflexivity].
  apply nth_In. apply Nat.mod_upper_bound. simpl. lia.
Qed.

(** The retrieval of the pipeline is [semantic_search] at threshold 0.65
    and limit 3. *)
Lemma retrieval_semantic (query_embedding : list spec_float) (query : string) :
  retrieval query_embedding query =
    semantic_search client_search query_embedding (Some query)
      retrieval_threshold 3.
Proof. reflexivity. Qed.

(** The run of the body of the [try], branch by branch. *)
Lemma try_greeting (query : string) (w : world) :
  _is_greeting query = true ->
  exists a, In a greeting_responses /\
    generate_response_try query w =
      (Returned (Greeting, {| answer := a; sources := [] |}),
       {| draws := S (draws w); calls := calls w |}).
Proof.
  intros Hg. unfold Rag.generate_response_try. rewrite Hg.
  destruct (random_choice_elem greeting_responses w) as (a & Ha & Hrun); [done|].
  exists a. split; [done|].
  unfold mbind, M_bind. by rewrite Hrun.
Qed.

Lemma try_embedding_raises (query : string) (e : exn) (w : world) :
  _is_greeting query = false ->
  embed_query query = Raised e ->
  generate_response_try query w =
    (Raised e, {| draws := draws w; calls := calls w ++ [EmbedCall query] |}).
Proof.
  intros Hg He. unfold Rag.generate_response_try. rewrite Hg.
  unfold generate_embedding, record_call, modify, lift, mbind, M_bind.
  by rewrite He.
Qed.

Lemma try_retrieval_raises (query : string) (v : list spec_float) (e : exn)
    (w : world) :
  _is_greeting query = false ->
  embed_query query = Returned v ->
  retrieval v query = Raised e ->
  generate_response_try query w =
    (Raised e,
     {| draws := draws w;
        calls := (calls w ++ [EmbedCall query]) ++
                 [SearchCall v (Some query) "semantic" retrieval_kwargs] |}).
Proof.
  intros Hg He Hs. unfold Rag.generate_response_try. rewrite Hg.
  unfold generate_embedding, vector_db_search, record_call, modify, lift,
    mbind, M_bind.
  rewrite He. cbn [draws calls]. by rewrite Hs.
Qed.

Lemma try_fallback (query : string) (v : list spec_float) (w : world) :
  _is_greeting query = false ->
  embed_query query = Returned v ->
  retrieval v query = Returned [] ->
  exists a, In a fallback_responses /\
    generate_response_try query w =
      (Returned (Fallback, {| answer := a; sources := [] |}),
       {| draws := S (draws w);
          calls := (calls w ++ [EmbedCall query]) ++
                   [SearchCall v (Some query) "semantic" retrieval_kwargs] |}).
Proof.
  intros Hg He Hs. unfold Rag.generate_response_try. rewrite Hg.
  unfold generate_embedding, vector_db_search, record_call, modify, lift,
    mbind, M_bind.
  rewrite He. cbn [draws calls]. rewrite Hs.
  match goal with
  | |- context [random_choice randbelow fallback_responses ?w1] =>
      destruct (random_choice_elem fallback_responses w1) as (a & Ha & Hrun);
        [done|]
  end.
  exists a. split; [done|]. by rewrite Hrun.
Qed.

Lemma try_generation (query : string) (v : list spec_float)
    (rs : list search_result) (w : world) :
  _is_greeting query = false ->
  embed_query query = Returned v ->
  retrieval v query = Returned rs ->
  rs <> [] ->
  generate_response_try query w =
    (match llm_chain_run query (_format_context rs query) with
     | Returned a => Returned (Answered, {| answer := a; sources := rs |})
     | Raised e => Raised e
     end,
     {| draws := draws w;
        calls := ((calls w ++ [EmbedCall query]) ++
                  [SearchCall v (Some query) "semantic" retrieval_kwargs]) ++
                 [LlmCall query (_format_context rs query)] |}).
Proof.
  intros Hg He Hs Hrs. unfold Rag.generate_response_try. rewrite Hg.
  unfold generate_embedding, vector_db_search, _generate_llm_response,
    record_call, modify, lift, mbind, M_bind.
  rewrite He. cbn [draws calls]. rewrite Hs.
  destruct rs as [|r rs]; [done|]. cbn [draws calls].
  by destruct (llm_chain_run query (_format_context (r :: rs) query)).
Qed.

Lemma retrieved_functional (query : string) (rs rs' : list search_result) :
  retrieved query rs -> retrieved query rs' -> rs = rs'.
Proof.
  intros (_ & v & He & Hs) (_ & v' & He' & Hs'). congruence.
Qed.

(** Every run of [generate_response] ends in one of its four return
    statements. *)
Lemma generate_response_cases (query : string) (w : world) :
  exists b r w', generate_response query w = (Returned (b, r), w') /\
    ((b = Greeting /\ _is_greeting query = true /\ calls w' = calls w /\
      In (answer r) greeting_responses /\ sources r = []) \/
     (b = Fallback /\ retrieved query [] /\
      In (answer r) fallback_responses /\ sources r = []) \/
     (b = Answered /\ exists rs,
        retrieved query rs /\ rs <> [] /\ sources r = rs /\
        llm_chain_run query (_format_context rs query) = Returned (answer r)) \/
     (b = Failed /\ exists e,
        step_raises query e /\
        generate_response_try query w = (Raised e, w') /\
        r = {| answer := apology e; sources := [] |})).
Proof.
  unfold Rag.generate_response, try_except.
  destruct (_is_greeting query) eqn:Hg.
  { destruct (try_greeting query w Hg) as (a & Ha & ->).
    do 3 eexists. split; [reflexivity|]. left. by repeat split. }
  destruct (embed_query query) as [v|e] eqn:He.
  2: { rewrite (try_embedding_raises query e w Hg He).
       do 3 eexists. split; [reflexivity|]. do 3 right.
       split; [done|]. exists e. split; [|done]. by apply embedding_raises. }
  destruct (retrieval v query) as [rs|e] eqn:Hs.
  2: { rewrite (try_retrieval_raises query v e w Hg He Hs).
       do 3 eexists. split; [reflexivity|]. do 3 right.
       split; [done|]. exists e. split; [|done].
       by eapply retrieval_raises. }
  assert (Hret : retrieved query rs) by (split; [done|by exists v]).
  destruct (decide (rs = [])) as [->|Hrs].
  { destruct (try_fallback query v w Hg He Hs) as (a & Ha & ->).
    do 3 eexists. split; [reflexivity|]. right. left.
    split; [done|]. split; [exact Hret|]. by split. }
  rewrite (try_generation query v rs w Hg He Hs Hrs).
  destruct (llm_chain_run query (_format_context rs query)) as [a|e] eqn:Hl.
  - do 3 eexists. split; [reflexivity|]. right. right. left.
    split; [done|]. by exists rs.
  - do 3 eexists. split; [reflexivity|]. do 3 right.
    split; [done|]. exists e. split; [|done].
    by eapply generation_raises.
Qed.

(** A step raises at most one exception on a query. *)
Lemma step_raises_functional (query : string) (e e' : exn) :
  step_raises query e -> step_raises query e' -> e = e'.
Proof.
  intros [Hg He | v Hg He Hs | rs Hret Hrs Hl]
         [Hg' He' | v' Hg' He' Hs' | rs' Hret' Hrs' Hl'];
    try congruence.
  - destruct Hret' as (_ & u & Hu & _). congruence.
  - destruct Hret' as (_ & u & Hu & Hsu). congruence.
  - destruct Hret as (_ & u & Hu & _). congruence.
  - destruct Hret as (_ & u & Hu & Hsu). congruence.
  - rewrite (retrieved_functional _ _ _ Hret Hret') in Hl. congruence.
Qed.

(** A step that raises excludes the three other return statements. *)
Lemma step_raises_not_retrieved_empty (query : string) (e : exn) :
  step_raises query e -> retrieved query [] -> False.
Proof.
  intros [Hg He | v Hg He Hs | rs Hret Hrs Hl] Hret0.
  - destruct Hret0 as (_ & v & He' & _). congruence.
  - destruct Hret0 as (_ & v' & He' & Hs'). congruence.
  - by rewrite (retrieved_functional _ _ _ Hret Hret0) in Hrs.
Qed.

Lemma step_raises_not_greeting (query : string) (e : exn) :
  step_raises query e -> _is_greeting query = false.
Proof. by intros [Hg _ | v Hg _ _ | rs (Hg & _) _ _]. Qed.

(** C2. A query that, lowercased and stripped, contains a greeting phrase
    is answered with one of the greeting responses and no sources, and no
    collaborator is called. *)
Theorem greeting_short_circuit (query greet : string) (w : world) :
  In greet greetings ->
  contains greet (strip " ?!.," (str_lower query)) = true ->
  exists a w',
    generate_response query w =
      (Returned (Greeting, {| answer := a; sources := [] |}), w') /\
    In a greeting_responses /\
    calls w' = calls w.
Proof.
  intros Hin Hsub.
  assert (Hg : _is_greeting query = true) by (apply is_greeting_iff; eauto).
  destruct (try_greeting query w Hg) as (a & Ha & Hrun).
  exists a. eexists. unfold Rag.generate_response, try_except.
  rewrite Hrun. by repeat split.
Qed.

(** C3. A query that is no greeting and for which the semantic search at
    threshold 0.65 and limit 3 returns no result is answered with one of
    the fallback responses and no sources. *)
Theorem empty_retrieval_fallback (query : string) (v : list spec_float)
    (w : world) :
  _is_greeting query = false ->
  embed_query query = Returned v ->
  semantic_search client_search v (Some query) retrieval_threshold 3 = Returned [] ->
  exists a w',
    generate_response query w =
      (Returned (Fallback, {| answer := a; sources := [] |}), w') /\
    In a fallback_responses.
Proof.
  intros Hg He Hs.
  destruct (try_fallback query v w Hg He Hs) as (a & Ha & Hrun).
  exists a. eexists. unfold Rag.generate_response, try_except.
  rewrite Hrun. by split.
Qed.

(** C4. [generate_response] never raises; when a step raises [e], the
    response is the apology that embeds the text of [e], with no sources. *)
Theorem generate_response_never_raises (query : string) (w : world) :
  (exists b r w', generate_response query w = (Returned (b, r), w')) /\
  (forall e, step_raises query e ->
     exists w', generate_response query w =
       (Returned (Failed,
          {| answer :=
               "âš ï¸ Sorry, I encountered an error. Please try again later." +:+ nl +:+
               "(Error: " +:+ str_exn e +:+ ")";
             sources := [] |}), w')) /\
  (forall e w', generate_response_try query w = (Raised e, w') ->
     generate_response query w =
       (Returned (Failed,
          {| answer :=
               "âš ï¸ Sorry, I encountered an error. Please try again later." +:+ nl +:+
               "(Error: " +:+ str_exn e +:+ ")";
             sources := [] |}), w')).
Proof.
  destruct (generate_response_cases query w) as (b & r & w' & Hrun & Hcase).
  split; [by exists b, r, w'|]. split.
  - intros e He. exists w'. rewrite Hrun.
    destruct Hcase as [(_ & Hg & _) | [(_ & Hret & _) | [(_ & rs & Hret & Hrs & _ & Hl)
                      | (-> & e' & He' & _ & ->)]]].
    + by rewrite (step_raises_not_greeting _ _ He) in Hg.
    + by destruct (step_raises_not_retrieved_empty _ _ He Hret).
    + assert (Hgen : step_raises query e) by done.
      destruct He as [Hg He | v Hg He Hs | rs' Hret' Hrs' Hl'].
      * destruct Hret as (_ & v & He' & _). congruence.
      * destruct Hret as (_ & v' & He' & Hs'). congruence.
      * rewrite (retrieved_functional _ _ _ Hret' Hret) in Hl'. congruence.
    + by rewrite (step_raises_functional _ _ _ He He').
  - intros e w'' Htry. unfold Rag.generate_response, try_except.
    by rewrite Htry.
Qed.

(** C5, as amended. The sources are empty whenever the answer comes from
    the greeting, fallback or error branch; they are non-empty exactly when
    retrieval returned a non-empty sequence and the language-model call on
    it returned, and they are then that sequence. *)
Theorem sources_invariant (query : string) (w : world) (b : branch)
    (r : response) (w' : world) :
  generate_response query w = (Returned (b, r), w') ->
  (b <> Answered -> sources r = []) /\
  (sources r <> [] <->
     exists rs a, retrieved query rs /\ rs <> [] /\
       llm_chain_run query (_format_context rs query) = Returned a) /\
  (forall rs a, retrieved query rs -> rs <> [] ->
     llm_chain_run query (_format_context rs query) = Returned a ->
     b = Answered /\ sources r = rs).
Proof.
  intros Hrun.
  destruct (generate_response_cases query w) as (b0 & r0 & w0 & Hrun0 & Hcase).
  rewrite Hrun in Hrun0. injection Hrun0 as <- <- <-.
  assert (Hno : forall rs a, retrieved query rs -> rs <> [] ->
            llm_chain_run query (_format_context rs query) = Returned a ->
            b = Answered /\ sources r = rs).
  { intros rs a Hret Hrs Hl.
    destruct Hcase as [(_ & Hg & _) | [(_ & Hret0 & _) | [(-> & rs' & Hret' & _ & Hsrc & _)
                      | (_ & e & He & _)]]].
    - destruct Hret as (Hg' & _). congruence.
    - by rewrite (retrieved_functional _ _ _ Hret Hret0) in Hrs.
    - by rewrite (retrieved_functional _ _ _ Hret Hret').
    - destruct He as [Hg He | v Hg He Hs | rs' Hret' Hrs' Hl'].
      + destruct Hret as (_ & v & He' & _). congruence.
      + destruct Hret as (_ & v' & He' & Hs'). congruence.
      + rewrite (retrieved_functional _ _ _ Hret' Hret) in Hl'. congruence. }
  split; [|split; [split|exact Hno]].
  - intros Hb.
    destruct Hcase as [(_ & _ & _ & _ & Hsrc) | [(_ & _ & _ & Hsrc)
                      | [(-> & _) | (_ & e & _ & _ & ->)]]]; done.
  - intros Hsrc.
    destruct Hcase as [(_ & _ & _ & _ & Hsrc') | [(_ & _ & _ & Hsrc')
                      | [(_ & rs & Hret & Hrs & _ & Hl) | (_ & e & _ & _ & ->)]]];
      try done.
    by exists rs, (answer r).
  - intros (rs & a & Hret & Hrs & Hl).
    destruct (Hno rs a Hret Hrs Hl) as [_ ->]. done.
Qed.

End PipelineFacts.

Local Abbreviation example_response llm :=
  (generate_response lower Examples.first_index Examples.unit_embedding
     Examples.faq_search Examples.text_search_refused llm
     Examples.no_format Examples.no_format Examples.no_str).

Local Abbreviation two_results :=
  [Examples.faq_result 0 Examples.score_90; Examples.faq_result 1 Examples.score_80].

Lemma faq_retrieved :
  retrieved lower Examples.unit_embedding Examples.faq_search
    Examples.text_search_refused Examples.return_question two_results.
Proof.
  split; [vm_compute; reflexivity|].
  eexists. split; [reflexivity|]. vm_compute. reflexivity.
Qed.

Lemma llm_down_run :
  exists w',
    example_response Examples.llm_down Examples.return_question
      Examples.fresh_world =
      (Returned (Failed,
                 {| answer := apology (ServiceError "APITimeoutError" "Request timed out.");
                    sources := [] |}), w').
Proof. eexists. vm_compute. reflexivity. Qed.

Lemma greeting_short_circuit_witness :
  exists a w',
    example_response Examples.llm_answers "Hi there" Examples.fresh_world =
      (Returned (Greeting, {| answer := a; sources := [] |}), w') /\
    In a greeting_responses /\
    calls w' = calls Examples.fresh_world.
Proof.
  apply (greeting_short_circuit lower Examples.first_index Examples.unit_embedding
           Examples.faq_search Examples.text_search_refused Examples.llm_answers
           Examples.no_format Examples.no_format Examples.no_str
           "Hi there" "hi" Examples.fresh_world).
  - simpl. right. left. reflexivity.
  - vm_compute. reflexivity.
Defined.

Lemma empty_retrieval_fallback_witness :
  exists a w',
    generate_response lower Examples.first_index Examples.unit_embedding
      Examples.empty_search Examples.text_search_refused Examples.llm_answers
      Examples.no_format Examples.no_format Examples.no_str
      Examples.return_question Examples.fresh_world =
      (Returned (Fallback, {| answer := a; sources := [] |}), w') /\
    In a fallback_responses.
Proof.
  apply (empty_retrieval_fallback lower Examples.first_index Examples.unit_embedding
           Examples.empty_search Examples.text_search_refused Examples.llm_answers
           Examples.no_format Examples.no_format Examples.no_str
           Examples.return_question
           [S754_finite false 1 0; S754_zero false] Examples.fresh_world).
  - vm_compute. reflexivity.
  - reflexivity.
  - reflexivity.
Defined.

Lemma generate_response_never_raises_witness :
  exists w',
    example_response Examples.llm_down Examples.return_question
      Examples.fresh_world =
      (Returned (Failed,
                 {| answer :=
                      "âš ï¸ Sorry, I encountered an error. Please try again later." +:+ nl +:+
                      "(Error: Request timed out.)";
                    sources := [] |}), w').
Proof.
  apply (proj1 (proj2 (generate_response_never_raises lower Examples.first_index
           Examples.unit_embedding Examples.faq_search Examples.text_search_refused
           Examples.llm_down Examples.no_format Examples.no_format Examples.no_str
           Examples.return_question Examples.fresh_world))
           (ServiceError "APITimeoutError" "Request timed out.")).
  apply (generation_raises _ _ _ _ _ _ _ _ _ _ two_results).
  - exact faq_retrieved.
  - discriminate.
  - reflexivity.
Defined.

Lemma sources_invariant_witness :
  sources {| answer := "Send the item back within 30 days."; sources := two_results |}
    <> [] <->
  exists rs a,
    retrieved lower Examples.unit_embedding Examples.faq_search
      Examples.text_search_refused Examples.return_question rs /\
    rs <> [] /\
    Examples.llm_answers Examples.return_question
      (_format_context Examples.no_format Examples.no_format Examples.no_str rs
         Examples.return_question) = Returned a.
Proof.
  refine (proj1 (proj2 (sources_invariant lower Examples.first_index
            Examples.unit_embedding Examples.faq_search Examples.text_search_refused
            Examples.llm_answers Examples.no_format Examples.no_format
            Examples.no_str Examples.return_question Examples.fresh_world
            Answered
            {| answer := "Send the item back within 30 days."; sources := two_results |}
            _ _))).
  vm_compute. reflexivity.
Defined.

(** C5 as stated fails: retrieval returns two results for the question,
    the language model times out, and the response has no sources. *)
Lemma sources_empty_after_retrieval :
  ~ (forall (str_lower : string -> string) (randbelow : nat -> nat -> nat)
       (embed_query : string -> outcome (list spec_float))
       (client_search : list spec_float -> Z -> outcome (list scored_point))
       (client_search_text : list spec_float -> string -> Z -> option string ->
                             outcome (list scored_point))
       (llm_chain_run : string -> string -> outcome string)
       (format_percent str_float : spec_float -> string)
       (str_object : value -> string)
       (query : string) (w : world) (b : branch) (r : response) (w' : world),
       generate_response str_lower randbelow embed_query client_search
         client_search_text llm_chain_run format_percent str_float str_object
         query w =
         (Returned (b, r), w') ->
       (sources r <> [] <->
        exists rs, retrieved str_lower embed_query client_search client_search_text
                     query rs /\
                   rs <> [])).
Proof.
  intros Hclaim.
  destruct llm_down_run as [w' Hrun].
  apply Hclaim in Hrun. destruct Hrun as [_ Hback].
  refine (Hback _ eq_refl).
  exists two_results. split; [exact faq_retrieved | discriminate].
Qed.

End RagFacts.

(** * Properties of the conversation store *)

Module MemoryFacts.
Import Py Memory.

Lemma mapM_json_loads (history : list turn) :
  mapM json_loads (Json <$> history) = Returned history.
Proof.
  induction history as [|t history IH]; [done|].
  rewrite fmap_cons. cbn [mapM]. rewrite IH. done.
Qed.

(** [seq[-n:]] for a positive [n]: the last [min n (length seq)] items. *)
Lemma slice_from_neg {A} (n : Z) (seq : list A) :
  (0 < n)%Z ->
  slice_from (- n) seq = drop (length seq - Z.to_nat n) seq.
Proof.
  intros Hn. unfold slice_from.
  destruct (- n <? 0)%Z eqn:Hneg; [|lia].
  f_equal. lia.
Qed.

Lemma get_history_run (r : redis) (key : string) (history : list turn)
    (limit : option Z) :
  online r = true ->
  db r !! key = Some (Json <$> history) ->
  get_history key limit r =
    (Returned match limit with
              | Some limit => slice_from (- limit) history
              | None => history
              end, r).
Proof.
  intros Hon Hdb.
  unfold get_history, get_history_try, try_except, redis_lrange_all, lift,
    mbind, M_bind.
  rewrite Hon, Hdb. simpl. by rewrite mapM_json_loads.
Qed.

(** With a limit [n >= 1] the last [min n (length history)] turns come
    back, in order; with no limit, the whole history. *)
Lemma get_history_limit_pos (r : redis) (key : string) (history : list turn)
    (n : Z) :
  online r = true ->
  db r !! key = Some (Json <$> history) ->
  (0 < n)%Z ->
  exists recent,
    get_history key (Some n) r = (Returned recent, r) /\
    recent = drop (length history - Z.to_nat n) history /\
    length recent = min (Z.to_nat n) (length history).
Proof.
  intros Hon Hdb Hn. eexists. split; [by apply get_history_run|].
  rewrite slice_from_neg by done. split; [done|].
  rewrite length_drop. lia.
Qed.

Lemma get_history_no_limit (r : redis) (key : string) (history : list turn) :
  online r = true ->
  db r !! key = Some (Json <$> history) ->
  get_history key None r = (Returned history, r).
Proof. intros Hon Hdb. by apply (get_history_run r key history None). Qed.

(** C9 fails at [limit=0]: [history[-0:]] is the whole history, so
    [get_history(limit=0)] returns every turn and not the last zero. *)
Theorem get_history_limit_zero_whole (r : redis) (key : string)
    (history : list turn) :
  online r = true ->
  db r !! key = Some (Json <$> history) ->
  get_history key (Some 0%Z) r = (Returned history, r).
Proof.
  intros Hon Hdb. rewrite (get_history_run r key history (Some 0%Z)) by done.
  unfold slice_from. simpl. by rewrite Z.min_l by lia.
Qed.

Lemma get_history_limit_zero_whole_witness :
  get_history (session_key "default") (Some 0%Z) Examples.session_redis =
    (Returned Examples.two_turns, Examples.session_redis).
Proof.
  apply (get_history_limit_zero_whole Examples.session_redis
           (session_key "default") Examples.two_turns).
  - reflexivity.
  - vm_compute. reflexivity.
Defined.

End MemoryFacts.

(** * Properties of the other operations of the conversation store *)

Module SessionFacts.
Import Py Memory Session.

Lemma eqb_empty_false (s : string) : s <> "" -> String.eqb s "" = false.
Proof. intros Hs. by apply String.eqb_neq. Qed.

Lemma mapM_json_loads_app (docs : list document) (history : list turn) (t : turn) :
  mapM json_loads docs = Returned history ->
  mapM json_loads (docs ++ [Json t]) = Returned (history ++ [t]).
Proof.
  revert history. induction docs as [|d docs IH]; intros history.
  - intros [= <-]. reflexivity.
  - cbn [mapM app]. destruct (json_loads d) as [t0|e]; [|discriminate].
    simpl. destruct (mapM json_loads docs) as [h|e]; [|discriminate].
    simpl. intros [= <-]. by rewrite (IH h eq_refl).
Qed.

Lemma mapM_json_loads_malformed (docs : list document) (raw : string) :
  In (Malformed raw) docs ->
  exists e, mapM json_loads docs = Raised e.
Proof.
  induction docs as [|d docs IH]; [done|].
  intros [->|Hin].
  - by eexists.
  - destruct (IH Hin) as [e He]. cbn [mapM].
    destruct (json_loads d); simpl; [rewrite He|]; by eexists.
Qed.

(** The run of [add_message] on a server that can be reached. *)
Lemma add_message_run (now key user_message assistant_response : string)
    (s : server) :
  online (redis_of s) = true ->
  user_message <> "" -> assistant_response <> "" ->
  add_message now key user_message assistant_response s =
    (Returned true,
     {| redis_of :=
          set_db (<[key := default [] (db (redis_of s) !! key) ++
                            [Json (Turn now user_message assistant_response)]]>
                    (db (redis_of s))) (redis_of s);
        expiry := <[key := 604800%Z]> (expiry s) |}).
Proof.
  intros Hon Hu Ha. unfold add_message.
  rewrite (eqb_empty_false _ Hu), (eqb_empty_false _ Ha). simpl.
  unfold try_except, mbind, M_bind, redis_rpush, redis_expire.
  rewrite Hon. simpl. rewrite Hon. by rewrite lookup_insert_eq.
Qed.

(** X1. [add_message] rejects an empty question or answer with a
    [ValueError] before it touches Redis: nothing is stored or printed,
    whether or not the server can be reached. *)
Theorem add_message_empty_raises (now key user_message assistant_response : string)
    (s : server) :
  user_message = "" \/ assistant_response = "" ->
  add_message now key user_message assistant_response s =
    (Raised (ValueError "Messages cannot be empty"), s).
Proof.
  intros [-> | ->]; unfold add_message.
  - reflexivity.
  - by rewrite orb_true_r.
Qed.

(** X2. On a reachable server, a message appended to a session whose
    stored documents decode to [history] is then the last turn:
    [add_message] returns [True], [get_history()] returns [history] followed
    by the new turn, and [get_last_message()] returns the new turn. *)
Theorem add_message_then_read (now key user_message assistant_response : string)
    (history : list turn) (s : server) :
  online (redis_of s) = true ->
  user_message <> "" -> assistant_response <> "" ->
  mapM json_loads (default [] (db (redis_of s) !! key)) = Returned history ->
  exists s',
    add_message now key user_message assistant_response s = (Returned true, s') /\
    get_history key None s' =
      (Returned (history ++ [Turn now user_message assistant_response]), s') /\
    get_last_message key s' =
      (Returned (Some (Turn now user_message assistant_response)), s').
Proof.
  intros Hon Hu Ha Hdocs. eexists. split; [by apply add_message_run|].
  split.
  - unfold get_history, on_redis, Memory.get_history, get_history_try,
      try_except, redis_lrange_all, lift, mbind, M_bind.
    cbn [redis_of set_db online db expiry]. rewrite Hon, lookup_insert_eq.
    cbn [default from_option id]. by rewrite (mapM_json_loads_app _ _ _ Hdocs).
  - unfold get_last_message, try_except, mbind, M_bind, redis_lindex_last.
    cbn [redis_of set_db online db expiry]. rewrite Hon, lookup_insert_eq.
    cbn [default from_option id]. by rewrite last_snoc.
Qed.

(** X3. Every successful [add_message] sets the time to live of the whole
    session list to 604800 seconds (7 days), whatever it was before. *)
Theorem add_message_refreshes_expiry (now key user_message assistant_response : string)
    (s s' : server) :
  add_message now key user_message assistant_response s = (Returned true, s') ->
  expiry s' !! key = Some 604800%Z /\
  (forall other, other <> key -> expiry s' !! other = expiry s !! other).
Proof.
  unfold add_message.
  destruct (String.eqb user_message "" || String.eqb assistant_response "");
    [discriminate|].
  unfold try_except, mbind, M_bind, redis_rpush, redis_expire, on_redis,
    print_line, modify.
  destruct (online (redis_of s)) eqn:Hon; [|discriminate].
  cbn [redis_of set_db online db expiry]. rewrite Hon, lookup_insert_eq.
  intros [= <-]. cbn [expiry]. split.
  - apply lookup_insert_eq.
  - intros other Hne. by rewrite lookup_insert_ne.
Qed.

(** X4. When Redis cannot be reached, no operation raises: [add_message]
    and [clear_history] return [False], [get_history] returns the empty
    list and [get_last_message] returns [None]; each prints one line and
    leaves the stored data as it was. *)
Theorem offline_operations_swallow (now key user_message assistant_response : string)
    (limit : option Z) (s : server) :
  online (redis_of s) = false ->
  user_message <> "" -> assistant_response <> "" ->
  let printed_line prefix :=
    {| redis_of :=
         {| db := db (redis_of s); online := online (redis_of s);
            printed := printed (redis_of s) ++
                       [prefix +:+ "Error connecting to Redis"] |};
       expiry := expiry s |} in
  add_message now key user_message assistant_response s =
    (Returned false, printed_line "Error saving message: ") /\
  get_history key limit s =
    (Returned [], printed_line "Error retrieving history: ") /\
  clear_history key s =
    (Returned false, printed_line "Error clearing history: ") /\
  get_last_message key s =
    (Returned None, printed_line "Error getting last message: ").
Proof.
  intros Hoff Hu Ha printed_line. unfold printed_line. repeat split.
  - unfold add_message.
    rewrite (eqb_empty_false _ Hu), (eqb_empty_false _ Ha). simpl.
    unfold try_except, mbind, M_bind, redis_rpush, on_redis, print_line, modify.
    rewrite Hoff. cbv beta iota. rewrite ?Hoff. reflexivity.
  - unfold get_history, on_redis, Memory.get_history, get_history_try,
      try_except, redis_lrange_all, mbind, M_bind, print_line, modify.
    rewrite Hoff. cbv beta iota. rewrite ?Hoff. reflexivity.
  - unfold clear_history, try_except, mbind, M_bind, redis_delete, on_redis,
      print_line, modify.
    rewrite Hoff. cbv beta iota. rewrite ?Hoff. reflexivity.
  - unfold get_last_message, try_except, mbind, M_bind, redis_lindex_last,
      on_redis, print_line, modify.
    rewrite Hoff. cbv beta iota. rewrite ?Hoff. reflexivity.
Qed.

(** X5. On a reachable server [clear_history] deletes the session list and
    returns whether there was one; afterwards [get_history] returns the
    empty list and [get_last_message] returns [None], and the other
    sessions are untouched. *)
Theorem clear_history_then_read (key : string) (limit : option Z) (s : server) :
  online (redis_of s) = true ->
  exists s',
    clear_history key s =
      (Returned (bool_decide (is_Some (db (redis_of s) !! key))), s') /\
    get_history key limit s' = (Returned [], s') /\
    get_last_message key s' = (Returned None, s') /\
    (forall other, other <> key ->
       db (redis_of s') !! other = db (redis_of s) !! other /\
       expiry s' !! other = expiry s !! other).
Proof.
  intros Hon.
  assert (Hread : forall s', online (redis_of s') = true ->
            db (redis_of s') !! key = None ->
            get_history key limit s' = (Returned [], s') /\
            get_last_message key s' = (Returned None, s')).
  { intros [[d o p] ex] Hon' Hnone. simpl in *. subst o. split.
    - unfold get_history, on_redis, Memory.get_history, get_history_try,
        try_except, redis_lrange_all, lift, mbind, M_bind.
      cbn [redis_of online db expiry]. rewrite Hnone.
      destruct limit; cbn; [|done]. unfold slice_from. by rewrite drop_nil.
    - unfold get_last_message, try_except, mbind, M_bind, redis_lindex_last.
      cbn [redis_of online db expiry]. by rewrite Hnone. }
  unfold clear_history, try_except, mbind, M_bind, redis_delete. rewrite Hon.
  destruct (db (redis_of s) !! key) as [docs|] eqn:Hkey.
  - rewrite bool_decide_eq_true_2 by eauto.
    eexists. split; [reflexivity|].
    destruct (Hread {| redis_of := set_db (delete key (db (redis_of s))) (redis_of s);
                       expiry := delete key (expiry s) |}) as [Hh Hl].
    { exact Hon. }
    { apply lookup_delete_eq. }
    split; [exact Hh|]. split; [exact Hl|].
    intros other Hne. cbn [redis_of set_db db expiry].
    by rewrite !lookup_delete_ne.
  - rewrite bool_decide_eq_false_2 by (by intros [? ?]).
    exists s. split; [reflexivity|].
    destruct (Hread s Hon Hkey) as [Hh Hl]. by repeat split.
Qed.

(** X6. One stored string that is not JSON hides the whole session from
    [get_history], which then returns the empty list, while
    [get_last_message] still returns the last turn when the last string
    decodes. *)
Theorem corrupt_entry_hides_history (key raw : string) (docs : list document)
    (t : turn) (limit : option Z) (s : server) :
  online (redis_of s) = true ->
  db (redis_of s) !! key = Some (docs ++ [Json t]) ->
  In (Malformed raw) docs ->
  (exists s', get_history key limit s = (Returned [], s') /\
              db (redis_of s') = db (redis_of s)) /\
  get_last_message key s = (Returned (Some t), s).
Proof.
  intros Hon Hdb Hbad. split.
  - destruct (mapM_json_loads_malformed (docs ++ [Json t]) raw) as [e He].
    { apply in_or_app. by left. }
    eexists.
    unfold get_history, on_redis, Memory.get_history, get_history_try,
      try_except, redis_lrange_all, lift, mbind, M_bind, print_line, modify.
    rewrite Hon, Hdb. cbn [default from_option id]. rewrite He.
    split; reflexivity.
  - unfold get_last_message, try_except, mbind, M_bind, redis_lindex_last.
    rewrite Hon, Hdb. cbn [default from_option id]. by rewrite last_snoc.
Qed.

Lemma get_history_depends (key : string) (limit : option Z) (r r' : redis) :
  online r = online r' ->
  db r !! key = db r' !! key ->
  fst (Memory.get_history key limit r) = fst (Memory.get_history key limit r').
Proof.
  intros Hon Hdb.
  unfold Memory.get_history, get_history_try, try_except, redis_lrange_all,
    lift, mbind, M_bind, print_line, modify.
  rewrite Hon, Hdb. destruct (online r'); [|done].
  by destruct (mapM json_loads (default [] (db r' !! key))).
Qed.

Lemma session_key_inj (a b : string) : session_key a = session_key b -> a = b.
Proof. unfold session_key. apply String.app_inj. Qed.

Lemma add_message_frame (now key user_message assistant_response : string)
    (o : outcome bool) (s s' : server) :
  add_message now key user_message assistant_response s = (o, s') ->
  online (redis_of s') = online (redis_of s) /\
  forall other, other <> key ->
    db (redis_of s') !! other = db (redis_of s) !! other /\
    expiry s' !! other = expiry s !! other.
Proof.
  unfold add_message.
  destruct (String.eqb user_message "" || String.eqb assistant_response "").
  { intros [= <- <-]. done. }
  unfold try_except, mbind, M_bind, redis_rpush, redis_expire, on_redis,
    print_line, modify.
  destruct (online (redis_of s)) eqn:Hon.
  - cbn [redis_of set_db online db expiry]. rewrite Hon, lookup_insert_eq.
    intros [= <- <-]. cbn [redis_of set_db online db expiry].
    split; [done|]. intros other Hne. by rewrite !lookup_insert_ne.
  - cbv beta iota. intros [= <- <-]. cbn [redis_of online db expiry].
    done.
Qed.

Lemma clear_history_frame (key : string) (o : outcome bool) (s s' : server) :
  clear_history key s = (o, s') ->
  online (redis_of s') = online (redis_of s) /\
  forall other, other <> key ->
    db (redis_of s') !! other = db (redis_of s) !! other /\
    expiry s' !! other = expiry s !! other.
Proof.
  unfold clear_history, try_except, mbind, M_bind, redis_delete, on_redis,
    print_line, modify.
  destruct (online (redis_of s)) eqn:Hon.
  - destruct (db (redis_of s) !! key).
    + intros [= <- <-]. cbn [redis_of set_db online db expiry].
      split; [done|]. intros other Hne. by rewrite !lookup_delete_ne.
    + intros [= <- <-]. done.
  - cbv beta iota. intros [= <- <-]. cbn [redis_of online db expiry]. done.
Qed.

Lemma connect_key (session_id key : string) (s s' : server) :
  connect session_id s = (Returned key, s') ->
  key = session_key session_id /\ s' = s.
Proof.
  unfold connect. destruct (String.eqb session_id ""); [discriminate|].
  unfold try_except, mbind, M_bind, redis_ping, raise.
  destruct (online (redis_of s)); [|discriminate].
  by intros [= <- <-].
Qed.

(** X7. Sessions are isolated by their key: two clients connected with
    different session ids work on different lists, so appending to or
    clearing one session changes neither the stored list, nor the expiry,
    nor what [get_history] returns for the other. *)
Theorem sessions_isolated (now a b ka kb user_message assistant_response : string)
    (limit : option Z) (o1 o2 : outcome bool) (s s1 s2 : server) :
  a <> b ->
  connect a s = (Returned ka, s) ->
  connect b s = (Returned kb, s) ->
  add_message now ka user_message assistant_response s = (o1, s1) ->
  clear_history ka s1 = (o2, s2) ->
  db (redis_of s1) !! kb = db (redis_of s) !! kb /\
  db (redis_of s2) !! kb = db (redis_of s) !! kb /\
  expiry s2 !! kb = expiry s !! kb /\
  fst (get_history kb limit s1) = fst (get_history kb limit s) /\
  fst (get_history kb limit s2) = fst (get_history kb limit s).
Proof.
  intros Hab Hka Hkb Hadd Hclear.
  apply connect_key in Hka as [-> _]. apply connect_key in Hkb as [-> _].
  assert (Hkey : session_key b <> session_key a).
  { intros Heq. apply Hab. symmetry. by apply session_key_inj. }
  destruct (add_message_frame _ _ _ _ _ _ _ Hadd) as [Hon1 Hframe1].
  destruct (clear_history_frame _ _ _ _ Hclear) as [Hon2 Hframe2].
  destruct (Hframe1 _ Hkey) as [Hdb1 Hex1].
  destruct (Hframe2 _ Hkey) as [Hdb2 Hex2].
  assert (Hget : forall s', fst (get_history (session_key b) limit s') =
            fst (Memory.get_history (session_key b) limit (redis_of s'))).
  { intros s'. unfold get_history, on_redis.
    by destruct (Memory.get_history (session_key b) limit (redis_of s')). }
  split; [done|]. split; [congruence|]. split; [congruence|].
  rewrite !Hget. split; apply get_history_depends; congruence.
Qed.

(** X8. With a limit [n >= 1], [get_history] returns the last
    [min n (length history)] turns of the session, oldest first: the
    history is what was cut off followed by what is returned. *)
Theorem get_history_recent (key : string) (history : list turn) (n : Z)
    (s : server) :
  online (redis_of s) = true ->
  db (redis_of s) !! key = Some (Json <$> history) ->
  (1 <= n)%Z ->
  exists older recent,
    get_history key (Some n) s = (Returned recent, s) /\
    history = older ++ recent /\
    length recent = min (Z.to_nat n) (length history).
Proof.
  intros Hon Hdb Hn.
  exists (take (length history - Z.to_nat n) history),
         (drop (length history - Z.to_nat n) history).
  split; [|split].
  - unfold get_history, on_redis.
    rewrite (MemoryFacts.get_history_run _ _ history (Some n) Hon Hdb).
    rewrite MemoryFacts.slice_from_neg by lia. by destruct s.
  - by rewrite take_drop.
  - rewrite length_drop. lia.
Qed.

(** X9. A negative limit cuts the other end: [get_history(limit=-k)]
    returns the history without its [k] oldest turns. *)
Theorem get_history_negative_limit (key : string) (history : list turn) (k : nat)
    (s : server) :
  online (redis_of s) = true ->
  db (redis_of s) !! key = Some (Json <$> history) ->
  1 <= k ->
  get_history key (Some (- Z.of_nat k)%Z) s = (Returned (drop k history), s).
Proof.
  intros Hon Hdb Hk. unfold get_history, on_redis.
  rewrite (MemoryFacts.get_history_run _ _ history (Some (- Z.of_nat k)%Z) Hon Hdb).
  unfold slice_from. rewrite Z.opp_involutive.
  destruct (Z.of_nat k <? 0)%Z eqn:Hneg; [lia|].
  destruct s as [r ex]. cbn [redis_of expiry]. f_equal. f_equal.
  destruct (decide (k <= length history)) as [Hle|Hgt].
  - f_equal. lia.
  - rewrite Z.min_r by lia. rewrite Nat2Z.id.
    by rewrite !drop_ge by lia.
Qed.

End SessionFacts.

(** * Further properties of the vector store adapter *)

Module AdapterFacts.
Import Py Qdrant.

(** What a comprehension over a list returns, when no item raises. *)
Lemma mapM_returned_lookup {A B} (f : A -> outcome B) (l : list A) :
  forall (l' : list B), mapM f l = Returned l' ->
  length l' = length l /\
  (forall j x, l !! j = Some x ->
     exists y, f x = Returned y /\ l' !! j = Some y).
Proof.
  induction l as [|a l IH]; intros l'.
  - cbn. intros [= <-]. split; [done|]. intros j x Hj. by destruct j.
  - cbn [mapM]. destruct (f a) as [y|e] eqn:Hy; [|discriminate].
    simpl. destruct (mapM f l) as [k|e]; [|discriminate].
    simpl. intros [= <-]. destruct (IH k eq_refl) as [Hlen Hlook].
    split; [simpl; by rewrite Hlen|].
    intros [|j] x Hj; simpl in *.
    + injection Hj as <-. by exists y.
    + by apply Hlook.
Qed.

Section UploadEdges.

Variable py : interpreter.
Variable str_object : value -> string.
Variable str_point : point -> string.
Variable upload_fault : nat -> list point -> option (exn * nat).

Local Abbreviation clean_value := (clean_value py str_object).
Local Abbreviation clean_metadata := (clean_metadata py str_object).
Local Abbreviation upload_data := (upload_data py str_object str_point upload_fault).

Lemma make_payloads_length (texts : list string)
    (cleaned : list (gmap string value)) :
  length (make_payloads texts cleaned) = min (length texts) (length cleaned).
Proof. unfold make_payloads. by rewrite length_zip_with. Qed.

Lemma make_payloads_lookup (texts : list string)
    (metadatas cleaned : list (gmap string value)) (j : nat) (text : string)
    (metadata : gmap string value) :
  mapM clean_metadata metadatas = Returned cleaned ->
  texts !! j = Some text ->
  metadatas !! j = Some metadata ->
  exists cleaned_metadata,
    clean_metadata metadata = Returned cleaned_metadata /\
    make_payloads texts cleaned !! j =
      Some (cleaned_metadata ∪ {[ "text" := PyStr text ]}).
Proof.
  intros Hclean Ht Hm.
  destruct (mapM_returned_lookup _ _ _ Hclean) as [_ Hlook].
  destruct (Hlook _ _ Hm) as (c & Hc & Hj).
  exists c. split; [done|]. unfold make_payloads.
  by rewrite lookup_zip_with, Ht, Hj.
Qed.

(** X10. A call that succeeds sends one request per [batch_size]
    embeddings, but uploads only as many points as the shortest of the
    three lists has records: the records beyond it are dropped without
    any error. *)
Theorem upload_data_truncates (texts : list string)
    (embeddings : list (list spec_float))
    (metadatas cleaned : list (gmap string value))
    (batch_size : positive) (w : cluster) :
  (forall n points, upload_fault n points = None) ->
  mapM clean_metadata metadatas = Returned cleaned ->
  exists w',
    upload_data texts embeddings metadatas (Zpos batch_size) w =
      (Returned tt, w') /\
    length (requests w') =
      length (requests w) +
      (length embeddings + Pos.to_nat batch_size - 1) / Pos.to_nat batch_size /\
    length (concat (drop (length (requests w)) (requests w'))) =
      min (length embeddings) (min (length texts) (length metadatas)).
Proof.
  intros Hok Hclean. eexists.
  split; [by apply QdrantFacts.upload_data_success|].
  cbn [requests]. split.
  - by rewrite length_app, length_fmap, length_seq.
  - rewrite drop_app_length.
    rewrite QdrantFacts.concat_all_batches by lia.
    rewrite QdrantFacts.all_points_length, make_payloads_length.
    by destruct (mapM_returned_lookup _ _ _ Hclean) as [-> _].
Qed.

(** X11. Ids restart at 0 in every call, so after a second, shorter upload
    the points of the first call beyond the length of the second are still
    in the collection. *)
Theorem shorter_upload_leaves_stale_points (texts1 texts2 : list string)
    (embeddings1 embeddings2 : list (list spec_float))
    (metadatas1 metadatas2 cleaned1 cleaned2 : list (gmap string value))
    (size1 size2 : positive) (w w1 w2 : cluster) (j : nat) (p : point) :
  (forall n points, upload_fault n points = None) ->
  mapM clean_metadata metadatas1 = Returned cleaned1 ->
  mapM clean_metadata metadatas2 = Returned cleaned2 ->
  upload_data texts1 embeddings1 metadatas1 (Zpos size1) w = (Returned tt, w1) ->
  upload_data texts2 embeddings2 metadatas2 (Zpos size2) w1 = (Returned tt, w2) ->
  all_points embeddings1 (make_payloads texts1 cleaned1) !! j = Some p ->
  min (length embeddings2) (min (length texts2) (length metadatas2)) <= j ->
  collection w2 !! Z.of_nat j = Some p.
Proof.
  intros Hok Hclean1 Hclean2 Hrun1 Hrun2 Hp Hj.
  rewrite (QdrantFacts.upload_data_success _ _ _ _ _ _ _ cleaned1) in Hrun1 by done.
  rewrite (QdrantFacts.upload_data_success _ _ _ _ _ _ _ cleaned2) in Hrun2 by done.
  injection Hrun1 as <-. injection Hrun2 as <-. cbn [collection].
  rewrite QdrantFacts.upsert_points_other.
  - by apply QdrantFacts.upsert_all_lookup.
  - apply Forall_lookup. intros i q Hq.
    rewrite (QdrantFacts.all_points_id _ _ _ _ Hq).
    apply lookup_lt_Some in Hq.
    rewrite QdrantFacts.all_points_length, make_payloads_length in Hq.
    destruct (mapM_returned_lookup _ _ _ Hclean2) as [Hlen _]. lia.
Qed.

(** What a search method makes of a hit that carries the payload of an
    uploaded record. *)
Lemma format_uploaded_payload (text : string) (cleaned : gmap string value)
    (id : Z) (score : spec_float) :
  format_hit (ScoredPoint id score (cleaned ∪ {[ "text" := PyStr text ]})) =
    Returned
      {| res_text := default (PyStr text) (cleaned !! "text");
         res_metadata := delete "text" cleaned;
         res_score := score;
         res_id := id |}.
Proof.
  unfold format_hit. cbn [hit_payload hit_score hit_id].
  rewrite lookup_union, lookup_singleton_eq.
  rewrite delete_union, delete_singleton_eq, (right_id_L ∅ (∪)).
  by destruct (cleaned !! "text").
Qed.

(** X12. Round trip of a record whose metadata has no ["text"] key: when
    the cleaning of the upload returns, a hit that carries the uploaded
    payload is formatted without error, with the text of the record and
    exactly its cleaned metadata. *)
Theorem uploaded_record_round_trip (texts : list string)
    (metadatas cleaned : list (gmap string value)) (j : nat) (text : string)
    (metadata : gmap string value) (id : Z) (score : spec_float) :
  mapM clean_metadata metadatas = Returned cleaned ->
  texts !! j = Some text ->
  metadatas !! j = Some metadata ->
  metadata !! "text" = None ->
  exists cleaned_metadata payload,
    clean_metadata metadata = Returned cleaned_metadata /\
    make_payloads texts cleaned !! j = Some payload /\
    format_hit (ScoredPoint id score payload) =
      Returned {| res_text := PyStr text;
                  res_metadata := cleaned_metadata;
                  res_score := score;
                  res_id := id |}.
Proof.
  intros Hclean Ht Hm Hnone.
  destruct (make_payloads_lookup _ _ _ _ _ _ Hclean Ht Hm) as (c & Hc & Hj).
  exists c. eexists. split; [done|]. split; [done|].
  pose proof (QdrantFacts.clean_metadata_lookup _ _ _ _ Hc "text") as Hlook.
  rewrite Hnone in Hlook. inversion Hlook as [|Hnone' Hc'].
  rewrite format_uploaded_payload, <- Hc'. simpl.
  by rewrite delete_id.
Qed.

(** X13. A ["text"] key in the metadata overrides the text of the record:
    when the cleaning of the upload returns, the payload, and every search
    result built from it, carries the cleaned metadata value as its text,
    and the text of the record is not stored. *)
Theorem metadata_text_overrides (texts : list string)
    (metadatas cleaned : list (gmap string value)) (j : nat) (text : string)
    (metadata : gmap string value) (v : value) (id : Z) (score : spec_float) :
  mapM clean_metadata metadatas = Returned cleaned ->
  texts !! j = Some text ->
  metadatas !! j = Some metadata ->
  metadata !! "text" = Some v ->
  exists v' payload,
    clean_value v = Returned v' /\
    make_payloads texts cleaned !! j = Some payload /\
    payload !! "text" = Some v' /\
    exists r, format_hit (ScoredPoint id score payload) = Returned r /\
              res_text r = v'.
Proof.
  intros Hclean Ht Hm Hv.
  destruct (make_payloads_lookup _ _ _ _ _ _ Hclean Ht Hm) as (c & Hc & Hj).
  pose proof (QdrantFacts.clean_metadata_lookup _ _ _ _ Hc "text") as Hlook.
  rewrite Hv in Hlook. inversion Hlook as [v0 v' Hv' Hv0 Hc'|].
  exists v'. eexists. split; [done|]. split; [done|]. split.
  - by rewrite lookup_union, <- Hc'.
  - eexists. split; [apply format_uploaded_payload|].
    cbn [res_text]. by rewrite <- Hc'.
Qed.

End UploadEdges.

Lemma clean_value_stable (py : interpreter) (str_object : value -> string)
    (v v' : value) :
  (forall l, v <> PyList l) ->
  clean_value py str_object v = Returned v' ->
  clean_value py str_object v' = Returned v'.
Proof.
  intros Hobj. destruct v; simpl; try (by intros [= <-]).
  - destruct (is_numeric_string py s) eqn:Hnum.
    + destruct (contains "." s).
      * destruct (float_of_str py s); [|done]. by intros [= <-].
      * destruct (int_of_str py s); [|done]. by intros [= <-].
    + intros [= <-]. simpl. by rewrite Hnum.
  - destruct (complex_int py re im); [|done]. by intros [= <-].
  - by destruct (Hobj l).
Qed.

(** X14. On metadata that holds no value outside the scalar and numpy
    types, [clean_metadata] is stable on its own output: when cleaning
    returns, cleaning the cleaned metadata again returns it unchanged. *)
Theorem clean_metadata_stable (py : interpreter) (str_object : value -> string)
    (metadata cleaned : gmap string value) :
  (forall key l, metadata !! key <> Some (PyList l)) ->
  clean_metadata py str_object metadata = Returned cleaned ->
  clean_metadata py str_object cleaned = Returned cleaned.
Proof.
  intros Hobj Hrun.
  pose proof (QdrantFacts.clean_metadata_lookup _ _ _ _ Hrun) as Hlook.
  assert (Hfixed : forall key v', cleaned !! key = Some v' ->
            clean_value py str_object v' = Returned v').
  { intros key v' Hkey. specialize (Hlook key). rewrite Hkey in Hlook.
    inversion Hlook as [v v0 Hv Hm|]; subst.
    apply (clean_value_stable _ _ v); [|done].
    intros l ->. by apply (Hobj key l). }
  destruct (QdrantFacts.clean_metadata_returns py str_object cleaned)
    as [again Hagain].
  { intros key v' Hkey. exists v'. by apply (Hfixed key). }
  rewrite Hagain. f_equal. apply map_eq. intros key.
  pose proof (QdrantFacts.clean_metadata_lookup _ _ _ _ Hagain key) as Hkey.
  inversion Hkey as [v' v'' Hv' Hc Ha|Hc Ha]; [|done].
  rewrite (Hfixed key v') in Hv' by done.
  by injection Hv' as <-.
Qed.

Lemma mapM_format_hit_fields (hits : list scored_point) :
  forall rs, mapM format_hit hits = Returned rs ->
  res_id <$> rs = hit_id <$> hits /\
  res_score <$> rs = hit_score <$> hits.
Proof.
  induction hits as [|hit hits IH]; intros rs.
  - cbn. by intros [= <-].
  - cbn [mapM]. destruct (format_hit hit) as [r|e] eqn:Hr; [|discriminate].
    simpl. destruct (mapM format_hit hits) as [rs'|e]; [|discriminate].
    simpl. intros [= <-]. destruct (IH rs' eq_refl) as [Hid Hsc].
    unfold format_hit in Hr.
    destruct (hit_payload hit !! "text"); [|discriminate].
    injection Hr as <-.
    rewrite !fmap_cons. cbn [res_id res_score]. by rewrite Hid, Hsc.
Qed.

Section SearchMore.

Variable client_search : list spec_float -> Z -> outcome (list scored_point).
Variable client_search_text :
  list spec_float -> string -> Z -> option string -> outcome (list scored_point).

(** X15. [hybrid_search] applies no score threshold: when it returns, it
    returns one result per hit of the store, in the order of the store, with
    the ids and scores of the hits; an empty category filter is sent as no
    filter. *)
Theorem hybrid_search_keeps_every_hit (query : string)
    (query_embedding : list spec_float) (category_filter : option string)
    (limit : Z) (rs : list search_result) :
  hybrid_search client_search_text query query_embedding category_filter limit =
    Returned rs ->
  exists hits,
    client_search_text query_embedding query limit
      (if decide (category_filter = Some "") then None else category_filter) =
      Returned hits /\
    res_id <$> rs = hit_id <$> hits /\
    res_score <$> rs = hit_score <$> hits.
Proof.
  unfold hybrid_search.
  set (f := match category_filter with
            | Some "" | None => None
            | Some category => Some category
            end).
  assert (Hf : f = if decide (category_filter = Some "") then None
                   else category_filter).
  { unfold f. destruct category_filter as [[|c cs]|]; by case_decide. }
  rewrite <- Hf.
  destruct (client_search_text query_embedding query limit f) as [hits|e];
    [|discriminate].
  simpl. intros Hrs. exists hits. split; [done|].
  by apply mapM_format_hit_fields.
Qed.

(** X16. For a limit [n >= 1], when the store answers with hits that all
    carry a text, [semantic_search] returns exactly the first [n] hits whose
    score reaches the threshold, in the order of the store. *)
Theorem semantic_search_first_hits (query_embedding : list spec_float)
    (query : option string) (t : spec_float) (n : Z) (hits : list scored_point) :
  (1 <= n)%Z ->
  client_search query_embedding (n * 2)%Z = Returned hits ->
  Forall (fun hit => is_Some (hit_payload hit !! "text")) hits ->
  exists rs,
    semantic_search client_search query_embedding query t n = Returned rs /\
    res_id <$> rs =
      take (Z.to_nat n)
        (hit_id <$> List.filter (fun hit => SFleb t (hit_score hit)) hits) /\
    res_score <$> rs =
      take (Z.to_nat n)
        (hit_score <$> List.filter (fun hit => SFleb t (hit_score hit)) hits).
Proof.
  intros Hn Hstore Htext. unfold semantic_search. rewrite Hstore. simpl.
  destruct (QdrantFacts.filter_hits_first_survivors t n hits Htext [])
    as (survivors & Hsurv & Hrun); [simpl; lia|].
  eexists. split; [exact Hrun|].
  destruct (mapM_format_hit_fields _ _ Hsurv) as [Hid Hsc].
  cbn [app]. by rewrite !fmap_take, Hid, Hsc.
Qed.

(** X24. For a limit [n >= 1], whatever the store answers, the sequence
    that [semantic_search] returns holds at most [n] results, and every
    result has a score of at least the threshold. *)
Theorem semantic_search_bounds (query_embedding : list spec_float)
    (query : option string) (t : spec_float) (n : Z)
    (rs : list search_result) :
  (1 <= n)%Z ->
  semantic_search client_search query_embedding query t n = Returned rs ->
  Forall (fun r => SFleb t (res_score r) = true) rs /\
  (Z.of_nat (length rs) <= n)%Z.
Proof.
  unfold semantic_search. intros Hn.
  destruct (client_search query_embedding (n * 2)%Z) as [hits|e];
    simpl; [|discriminate].
  intros Hrun. split.
  - eapply QdrantFacts.filter_hits_scores; [exact Hrun | constructor].
  - eapply QdrantFacts.filter_hits_length; [exact Hrun | simpl; lia].
Qed.

End SearchMore.

End AdapterFacts.

(** * Properties of the collection guard *)

Module AdminFacts.
Import Py Qdrant Admin.


End AdminFacts.

(** * Chunking *)

Module IngestFacts.
Import Py Qdrant Ingest.

Section ChunkFacts.

Variable split_text : string -> list string.
Variable str_float : spec_float -> string.
Variable str_object : value -> string.

Local Abbreviation chunk_item := (chunk_item split_text str_float str_object).
Local Abbreviation chunk_data := (chunk_data split_text str_float str_object).

(** The text [chunk_data] splits for an item. *)
Local Abbreviation item_text question answer :=
  ("Question: " +:+ Rag.py_str str_float str_object question +:+ nl +:+
   "Answer: " +:+ Rag.py_str str_float str_object answer).

(** The chunks of one item, one by one. *)
Lemma chunk_item_lookup (item : gmap string value) (chunks : list chunk)
    (i : nat) (c : chunk) :
  chunk_item item = Returned chunks ->
  chunks !! i = Some c ->
  exists question answer category,
    item !! "Question" = Some question /\
    item !! "Answer" = Some answer /\
    item !! "Category" = Some category /\
    length chunks = length (split_text (item_text question answer)) /\
    split_text (item_text question answer) !! i = Some (chunk_text c) /\
    chunk_metadata c =
      {[ "category" := category;
         "original_question" := question;
         "chunk_num" := PyInt (Z.of_nat i + 1);
         "total_chunks" := PyInt (Z.of_nat (length chunks)) ]}.
Proof.
  unfold Ingest.chunk_item, getitem.
  destruct (item !! "Question") as [question|]; [|discriminate].
  destruct (item !! "Answer") as [answer|]; [|discriminate].
  cbn [mbind outcome_bind].
  destruct (split_text (item_text question answer)) as [|s0 splits] eqn:Hsplits.
  { intros [= <-]. done. }
  destruct (item !! "Category") as [category|]; [|discriminate].
  cbn [mbind outcome_bind]. intros Heq Hc.
  apply (f_equal (fun o => match o with Returned l => l | Raised _ => [] end))
    in Heq.
  cbv beta iota in Heq. subst chunks.
  rewrite list_lookup_imap in Hc.
  destruct ((s0 :: splits) !! i) as [split|] eqn:Hi; [|discriminate].
  injection Hc as <-. exists question, answer, category.
  rewrite length_imap, Hsplits. by repeat split.
Qed.

(** X18. The chunks of one item are its splits in order; the chunk at
    position [i] (from 0) is numbered [i + 1], every chunk records the
    number of splits as [total_chunks], and its metadata has exactly the
    keys [category], [original_question], [chunk_num] and
    [total_chunks]. *)
Theorem chunk_item_numbering (item : gmap string value) (chunks : list chunk)
    (i : nat) (c : chunk) :
  chunk_item item = Returned chunks ->
  chunks !! i = Some c ->
  chunk_metadata c !! "chunk_num" = Some (PyInt (Z.of_nat i + 1)) /\
  chunk_metadata c !! "total_chunks" = Some (PyInt (Z.of_nat (length chunks))) /\
  chunk_metadata c !! "category" = item !! "Category" /\
  chunk_metadata c !! "original_question" = item !! "Question" /\
  dom (chunk_metadata c) =
    {[ "category"; "original_question"; "chunk_num"; "total_chunks" ]} /\
  exists question answer,
    item !! "Question" = Some question /\ item !! "Answer" = Some answer /\
    chunk_text <$> chunks = split_text (item_text question answer).
Proof.
  intros Hrun Hc.
  destruct (chunk_item_lookup _ _ _ _ Hrun Hc)
    as (question & answer & category & Hq & Ha & Hcat & Hlen & Hsplit & Hmeta).
  rewrite Hmeta, Hq, Hcat.
  split; [by simplify_map_eq|]. split; [by simplify_map_eq|].
  split; [by simplify_map_eq|]. split; [by simplify_map_eq|].
  split; [rewrite !dom_insert_L, dom_singleton_L; set_solver|].
  exists question, answer. split; [done|]. split; [done|].
  apply list_eq. intros j. rewrite list_lookup_fmap.
  destruct (chunks !! j) as [c'|] eqn:Hj.
  - destruct (chunk_item_lookup _ _ _ _ Hrun Hj)
      as (q' & a' & _ & Hq' & Ha' & _ & _ & Hsplit' & _).
    simpl. congruence.
  - simpl. symmetry. apply lookup_ge_None. apply lookup_ge_None in Hj. lia.
Qed.

Lemma chunk_item_only_key_errors (item : gmap string value) (e : exn) :
  chunk_item item = Raised e -> exists key, e = KeyError key.
Proof.
  unfold Ingest.chunk_item, getitem.
  destruct (item !! "Question"); [|intros [= <-]; by eexists].
  destruct (item !! "Answer"); [|intros [= <-]; by eexists].
  cbn [mbind outcome_bind].
  destruct (split_text _); [discriminate|].
  destruct (item !! "Category"); [discriminate|intros [= <-]; by eexists].
Qed.

(** X19. One row without a [Question] or an [Answer] column aborts the
    whole chunking with a [KeyError]: no chunk of any other row is
    returned. *)
Theorem chunk_data_bad_row_aborts (data : list (gmap string value))
    (item : gmap string value) :
  In item data ->
  item !! "Question" = None \/ item !! "Answer" = None ->
  exists key, chunk_data data = Raised (KeyError key).
Proof.
  intros Hin Hbad.
  assert (Hitem : exists key, chunk_item item = Raised (KeyError key)).
  { unfold Ingest.chunk_item, getitem.
    destruct (item !! "Question"); [|by eexists].
    destruct Hbad as [?|Ha]; [done|]. rewrite Ha. by eexists. }
  unfold Ingest.chunk_data.
  assert (Hmap : exists key, mapM chunk_item data = Raised (KeyError key)).
  { induction data as [|d data IH]; [done|].
    cbn [mapM]. destruct Hin as [->|Hin].
    - destruct Hitem as [key ->]. by exists key.
    - destruct (chunk_item d) as [cs|e] eqn:Hd.
      + destruct (IH Hin) as [key ->]. by exists key.
      + destruct (chunk_item_only_key_errors _ _ Hd) as [key ->]. by exists key. }
  destruct Hmap as [key ->]. by exists key.
Qed.

Lemma chunk_data_elem (data : list (gmap string value)) :
  forall chunks c,
    chunk_data data = Returned chunks ->
    In c chunks ->
    exists item cs i,
      In item data /\ chunk_item item = Returned cs /\ cs !! i = Some c.
Proof.
  unfold Ingest.chunk_data.
  induction data as [|d data IH]; intros chunks c.
  - cbn. intros [= <-]. done.
  - cbn [mapM]. destruct (chunk_item d) as [cs|e] eqn:Hd; [|discriminate].
    cbn [mbind outcome_bind].
    destruct (mapM chunk_item data) as [rest|e] eqn:Hrest; [|discriminate].
    cbn. intros [= <-] Hin. apply in_app_or in Hin as [Hin|Hin].
    + apply list_elem_of_In, list_elem_of_lookup in Hin as [i Hi].
      exists d, cs, i. split; [by left|done].
    + destruct (IH (concat rest) c) as (item & cs' & i & Hitem & Hrun & Hi).
      { reflexivity. }
      { done. }
      exists item, cs', i. split; [by right|done].
Qed.

(** X20. No chunk that [chunk_data] produces has an [answer] or a [source]
    key, so when such a chunk is uploaded (its metadata cleaned without
    error) and comes back as a search result, the context block of the
    pipeline shows the chunk text with the placeholders
    [No specific answer found] and [General Knowledge]. *)
Theorem chunk_context_uses_placeholders (py : interpreter)
    (format_percent : spec_float -> string)
    (data : list (gmap string value)) (chunks : list chunk) (c : chunk)
    (cleaned : gmap string value) (id : Z) (score : spec_float) (i : nat) :
  chunk_data data = Returned chunks ->
  In c chunks ->
  clean_metadata py str_object (chunk_metadata c) = Returned cleaned ->
  exists r,
    format_hit (ScoredPoint id score
      (cleaned ∪ {[ "text" := PyStr (chunk_text c) ]})) = Returned r /\
    res_text r = PyStr (chunk_text c) /\
    Rag.context_line format_percent str_float str_object i r =
      "MATCH #" +:+ pretty i +:+ " (Relevance: " +:+ format_percent score +:+
        "):" +:+ nl +:+
      "QUESTION: " +:+ chunk_text c +:+ nl +:+
      "ANSWER: No specific answer found" +:+ nl +:+
      "SOURCE: General Knowledge" +:+ nl.
Proof.
  intros Hrun Hin Hclean.
  destruct (chunk_data_elem _ _ _ Hrun Hin) as (item & cs & j & _ & Hitem & Hj).
  destruct (chunk_item_lookup _ _ _ _ Hitem Hj)
    as (question & answer & category & _ & _ & _ & _ & _ & Hmeta).
  assert (Hkeys : forall key, key <> "category" -> key <> "original_question" ->
            key <> "chunk_num" -> key <> "total_chunks" ->
            cleaned !! key = None).
  { intros key ? ? ? ?.
    pose proof (QdrantFacts.clean_metadata_lookup _ _ _ _ Hclean key) as Hlook.
    rewrite Hmeta in Hlook. simplify_map_eq. by inversion Hlook. }
  eexists. split; [apply AdapterFacts.format_uploaded_payload|].
  rewrite (Hkeys "text") by done. cbn [default from_option].
  split; [reflexivity|].
  unfold Rag.context_line, Rag.metadata_get.
  cbn [res_score res_text res_metadata Rag.py_str].
  rewrite !lookup_delete_ne by done.
  rewrite (Hkeys "answer"), (Hkeys "source") by done. reflexivity.
Qed.

End ChunkFacts.

End IngestFacts.

(** * Further properties of the response pipeline *)

Module ResponseFacts.
Import Py Qdrant Rag.

Lemma lower_app (a b : string) : lower (a +:+ b) = lower a +:+ lower b.
Proof. induction a as [|c a IH]; [done|]. simpl. by rewrite IH. Qed.

Lemma prefix_app (needle rest : string) :
  String.prefix needle (needle +:+ rest) = true.
Proof.
  induction needle as [|c needle IH]; [by destruct rest|].
  simpl. by destruct (ascii_dec c c).
Qed.

Lemma contains_app (needle before rest : string) :
  contains needle (before +:+ needle +:+ rest) = true.
Proof.
  induction before as [|c before IH].
  - pose proof (prefix_app needle rest) as Hp.
    change (contains needle (needle +:+ rest) = true).
    destruct (needle +:+ rest); cbn [contains]; by rewrite Hp.
  - change (contains needle (String c (before +:+ needle +:+ rest)) = true).
    cbn [contains]. rewrite IH. apply orb_true_r.
Qed.

(** X21. Greetings are found by substring, whatever surrounds them: with
    the ASCII case mapping, any text that contains a greeting phrase in any
    letter case, also inside a longer word, is a greeting, and the stripping
    of the ends plays no part. *)
Theorem greeting_found_anywhere (before phrase rest greet : string) :
  In greet greetings ->
  lower phrase = greet ->
  _is_greeting lower (before +:+ phrase +:+ rest) = true.
Proof.
  intros Hin Hlow.
  rewrite RagFacts.is_greeting_strip_irrelevant.
  unfold any_in. apply existsb_exists. exists greet. split; [done|].
  rewrite !lower_app, Hlow. apply contains_app.
Qed.

Section PipelineMore.

Variable str_lower : string -> string.
Variable randbelow : nat -> nat -> nat.
Variable embed_query : string -> outcome (list spec_float).
Variable client_search : list spec_float -> Z -> outcome (list scored_point).
Variable client_search_text :
  list spec_float -> string -> Z -> option string -> outcome (list scored_point).
Variable llm_chain_run : string -> string -> outcome string.
Variable format_percent : spec_float -> string.
Variable str_float : spec_float -> string.
Variable str_object : value -> string.

Local Abbreviation _is_greeting := (_is_greeting str_lower).
Local Abbreviation generate_response :=
  (generate_response str_lower randbelow embed_query client_search
     client_search_text llm_chain_run format_percent str_float str_object).
Local Abbreviation generate_response_try :=
  (generate_response_try str_lower randbelow embed_query client_search
     client_search_text llm_chain_run format_percent str_float str_object).
Local Abbreviation _format_context :=
  (_format_context format_percent str_float str_object).
Local Abbreviation retrieved :=
  (retrieved str_lower embed_query client_search client_search_text).

(** X22. Whatever the collaborators answer, a response never cites more
    than 3 sources, and every source has a score of at least 0.65 (which
    a NaN score is not). *)
Theorem sources_within_policy (query : string) (w : world) (b : branch)
    (r : response) (w' : world) :
  generate_response query w = (Returned (b, r), w') ->
  length (sources r) <= 3 /\
  Forall (fun source => SFleb retrieval_threshold (res_score source) = true)
    (sources r).
Proof.
  intros Hrun.
  destruct (RagFacts.generate_response_cases str_lower randbelow embed_query
              client_search client_search_text llm_chain_run format_percent
              str_float str_object query w)
    as (b0 & r0 & w0 & Hrun0 & Hcase).
  rewrite Hrun in Hrun0. injection Hrun0 as <- <- <-.
  destruct Hcase as [(_ & _ & _ & _ & ->) | [(_ & _ & _ & ->)
                    | [(_ & rs & Hret & _ & -> & _) | (_ & e & _ & _ & ->)]]];
    try (split; [simpl; lia | constructor]).
  destruct Hret as (_ & v & _ & Hsearch).
  change (semantic_search client_search v (Some query) retrieval_threshold 3 =
          Returned rs) in Hsearch.
  unfold semantic_search in Hsearch.
  destruct (client_search v (3 * 2)%Z) as [hits|e]; [|discriminate].
  simpl in Hsearch. split.
  - pose proof (QdrantFacts.filter_hits_length _ _ _ _ _ Hsearch) as Hlen.
    simpl in Hlen. lia.
  - eapply QdrantFacts.filter_hits_scores; [exact Hsearch | constructor].
Qed.

(** X23. A query costs at most one call to each collaborator, in the order
    embedding, search, language model, and the pipeline stops at the first
    that fails: a greeting makes no call; when the embedding raises, the
    embedding is the only call; when the search raises or returns nothing,
    the search is the last call; the language model is called only on the
    context of a retrieval that returned results. *)
Theorem calls_in_order (query : string) (w : world) :
  exists b r w',
    generate_response query w = (Returned (b, r), w') /\
    calls w' = calls w ++
      (if _is_greeting query then []
       else
         EmbedCall query ::
         match embed_query query with
         | Raised _ => []
         | Returned v =>
             SearchCall v (Some query) "semantic" retrieval_kwargs ::
             match search client_search client_search_text v (Some query)
                     "semantic" retrieval_kwargs with
             | Raised _ | Returned [] => []
             | Returned (first :: others) =>
                 [LlmCall query (_format_context (first :: others) query)]
             end
         end).
Proof.
  unfold Rag.generate_response, try_except.
  destruct (_is_greeting query) eqn:Hg.
  { destruct (RagFacts.try_greeting str_lower randbelow embed_query client_search
                client_search_text llm_chain_run format_percent str_float
                str_object query w Hg) as (a & _ & ->).
    do 3 eexists. split; [reflexivity|]. cbn [calls]. by rewrite app_nil_r. }
  destruct (embed_query query) as [v|e] eqn:He.
  2: { rewrite (RagFacts.try_embedding_raises str_lower randbelow embed_query
                  client_search client_search_text llm_chain_run format_percent
                  str_float str_object query e w Hg He).
       do 3 eexists. split; reflexivity. }
  destruct (search client_search client_search_text v (Some query) "semantic"
              retrieval_kwargs) as [rs|e] eqn:Hs.
  2: { rewrite (RagFacts.try_retrieval_raises str_lower randbelow embed_query
                  client_search client_search_text llm_chain_run format_percent
                  str_float str_object query v e w Hg He Hs).
       do 3 eexists. split; [reflexivity|]. cbn [calls].
       by rewrite <- app_assoc. }
  destruct rs as [|first others].
  { destruct (RagFacts.try_fallback str_lower randbelow embed_query client_search
                client_search_text llm_chain_run format_percent str_float
                str_object query v w Hg He Hs) as (a & _ & ->).
    do 3 eexists. split; [reflexivity|]. cbn [calls].
    by rewrite <- app_assoc. }
  rewrite (RagFacts.try_generation str_lower randbelow embed_query client_search
             client_search_text llm_chain_run format_percent str_float
             str_object query v (first :: others) w Hg He Hs) by done.
  destruct (llm_chain_run query (_format_context (first :: others) query))
    as [a|e]; do 3 eexists; (split; [reflexivity|]); cbn [calls];
    by rewrite <- !app_assoc.
Qed.

End PipelineMore.

End ResponseFacts.

(** * The further properties on concrete inputs *)

Module Instances.
Import Py Qdrant Rag Memory Session Admin Ingest Examples MoreExamples.

Lemma add_message_empty_raises_witness :
  add_message "2025-01-02T09:00:00" (session_key "default") "Hello" "" offline_server =
    (Raised (ValueError "Messages cannot be empty"), offline_server).
Proof.
  apply (SessionFacts.add_message_empty_raises _ _ "Hello" "" offline_server).
  right. reflexivity.
Defined.

Lemma add_message_then_read_witness :
  exists s',
    add_message "2025-01-02T09:00:00" (session_key "default") "Thanks" "Welcome"
      session_server = (Returned true, s') /\
    get_history (session_key "default") None s' =
      (Returned (two_turns ++ [Turn "2025-01-02T09:00:00" "Thanks" "Welcome"]), s') /\
    get_last_message (session_key "default") s' =
      (Returned (Some (Turn "2025-01-02T09:00:00" "Thanks" "Welcome")), s').
Proof.
  apply (SessionFacts.add_message_then_read "2025-01-02T09:00:00"
           (session_key "default") "Thanks" "Welcome" two_turns session_server).
  - reflexivity.
  - discriminate.
  - discriminate.
  - vm_compute. reflexivity.
Defined.

Lemma add_message_refreshes_expiry_witness :
  expiry (snd (add_message "2025-01-02T09:00:00" (session_key "default")
                 "Thanks" "Welcome" session_server))
    !! session_key "default" = Some 604800%Z /\
  (forall other, other <> session_key "default" ->
     expiry (snd (add_message "2025-01-02T09:00:00" (session_key "default")
                    "Thanks" "Welcome" session_server)) !! other =
     expiry session_server !! other).
Proof.
  apply (SessionFacts.add_message_refreshes_expiry "2025-01-02T09:00:00"
           (session_key "default") "Thanks" "Welcome" session_server).
  vm_compute. reflexivity.
Defined.

Lemma offline_operations_swallow_witness :
  fst (add_message "2025-01-02T09:00:00" (session_key "default") "Thanks" "Welcome"
         offline_server) = Returned false /\
  fst (get_history (session_key "default") None offline_server) = Returned [] /\
  fst (clear_history (session_key "default") offline_server) = Returned false /\
  fst (get_last_message (session_key "default") offline_server) = Returned None.
Proof.
  destruct (SessionFacts.offline_operations_swallow "2025-01-02T09:00:00"
              (session_key "default") "Thanks" "Welcome" None offline_server)
    as (Ha & Hh & Hc & Hl).
  - reflexivity.
  - discriminate.
  - discriminate.
  - rewrite Ha, Hh, Hc, Hl. repeat split.
Defined.

Lemma clear_history_then_read_witness :
  exists s',
    clear_history (session_key "default") session_server = (Returned true, s') /\
    get_history (session_key "default") (Some 5%Z) s' = (Returned [], s') /\
    get_last_message (session_key "default") s' = (Returned None, s').
Proof.
  destruct (SessionFacts.clear_history_then_read (session_key "default")
              (Some 5%Z) session_server) as (s' & Hc & Hh & Hl & _).
  - reflexivity.
  - exists s'. split; [|by split].
    rewrite Hc. reflexivity.
Defined.

Lemma corrupt_entry_hides_history_witness :
  (exists s', get_history (session_key "default") None corrupt_server =
                (Returned [], s') /\
              db (redis_of s') = db (redis_of corrupt_server)) /\
  get_last_message (session_key "default") corrupt_server =
    (Returned (Some last_turn), corrupt_server).
Proof.
  apply (SessionFacts.corrupt_entry_hides_history (session_key "default") "{oops"
           [Malformed "{oops"] last_turn None corrupt_server).
  - reflexivity.
  - vm_compute. reflexivity.
  - left. reflexivity.
Defined.

Local Abbreviation other_added :=
  (add_message "2025-01-02T09:00:00" (session_key "other") "Hi" "Hello"
     session_server).

Lemma sessions_isolated_witness :
  fst (get_history (session_key "default") None (snd other_added)) =
  fst (get_history (session_key "default") None session_server).
Proof.
  destruct (SessionFacts.sessions_isolated "2025-01-02T09:00:00" "other" "default"
              (session_key "other") (session_key "default")
              "Hi" "Hello" None (fst other_added)
              (fst (clear_history (session_key "other") (snd other_added)))
              session_server (snd other_added)
              (snd (clear_history (session_key "other") (snd other_added))))
    as (_ & _ & _ & Hsame & _).
  - discriminate.
  - reflexivity.
  - reflexivity.
  - apply surjective_pairing.
  - apply surjective_pairing.
  - exact Hsame.
Defined.

Lemma get_history_recent_witness :
  exists older recent,
    get_history (session_key "default") (Some 1%Z) session_server =
      (Returned recent, session_server) /\
    two_turns = older ++ recent /\
    length recent = min (Z.to_nat 1) (length two_turns).
Proof.
  apply (SessionFacts.get_history_recent (session_key "default") two_turns 1
           session_server).
  - reflexivity.
  - vm_compute. reflexivity.
  - lia.
Defined.

Lemma get_history_negative_limit_witness :
  get_history (session_key "default") (Some (- Z.of_nat 1)%Z) session_server =
    (Returned (drop 1 two_turns), session_server).
Proof.
  apply (SessionFacts.get_history_negative_limit (session_key "default")
           two_turns 1 session_server).
  - reflexivity.
  - vm_compute. reflexivity.
  - lia.
Defined.

Lemma no_fault_never (n : nat) (points : list point) : no_fault n points = None.
Proof. reflexivity. Qed.

Lemma upload_data_truncates_witness :
  exists w',
    upload_data example_interpreter no_str point_id_str no_fault ["a"; "b"]
      three_embeddings three_metadatas 2 empty_cluster = (Returned tt, w') /\
    length (requests w') = length (requests empty_cluster) + (3 + 2 - 1) / 2 /\
    length (concat (drop (length (requests empty_cluster)) (requests w'))) = 2.
Proof.
  apply (AdapterFacts.upload_data_truncates example_interpreter no_str
           point_id_str no_fault ["a"; "b"] three_embeddings three_metadatas
           three_metadatas 2 empty_cluster).
  - exact no_fault_never.
  - exact QdrantFacts.three_metadatas_cleaned.
Defined.

Lemma shorter_upload_leaves_stale_points_witness :
  pt_vector <$>
    collection
      (snd (upload_data example_interpreter no_str point_id_str no_fault
              ["d"] [[score_50]] [∅] 100
              (snd (upload_data example_interpreter no_str point_id_str no_fault
                      three_texts three_embeddings three_metadatas 2
                      empty_cluster))))
      !! Z.of_nat 2 = Some [score_50].
Proof.
  erewrite (AdapterFacts.shorter_upload_leaves_stale_points example_interpreter
              no_str point_id_str
              no_fault three_texts ["d"] three_embeddings [[score_50]]
              three_metadatas [∅] three_metadatas [∅] 2 100 empty_cluster _ _ 2
              (Point 2 [score_50]
                 ({[ "category" := PyStr "payments" ]} ∪ {[ "text" := PyStr "c" ]}))).
  - reflexivity.
  - exact no_fault_never.
  - exact QdrantFacts.three_metadatas_cleaned.
  - reflexivity.
  - vm_compute. reflexivity.
  - vm_compute. reflexivity.
  - vm_compute. reflexivity.
  - simpl. lia.
Defined.

Lemma uploaded_record_round_trip_witness :
  exists cleaned_metadata payload,
    clean_metadata example_interpreter no_str {[ "category" := PyStr "orders" ]} =
      Returned cleaned_metadata /\
    make_payloads three_texts three_metadatas !! 1 = Some payload /\
    format_hit (ScoredPoint 1 score_80 payload) =
      Returned {| res_text := PyStr "b";
                  res_metadata := cleaned_metadata;
                  res_score := score_80;
                  res_id := 1 |}.
Proof.
  apply (AdapterFacts.uploaded_record_round_trip example_interpreter no_str
           three_texts three_metadatas three_metadatas
           1 "b" {[ "category" := PyStr "orders" ]} 1 score_80).
  - exact QdrantFacts.three_metadatas_cleaned.
  - reflexivity.
  - reflexivity.
  - vm_compute. reflexivity.
Defined.

Lemma titled_metadata_cleaned :
  clean_metadata example_interpreter no_str titled_metadata =
    Returned {[ "text" := PyInt 42; "category" := PyStr "orders" ]}.
Proof. vm_compute. reflexivity. Qed.

Lemma metadata_text_overrides_witness :
  exists v' payload,
    clean_value example_interpreter no_str (PyStr "42") = Returned v' /\
    make_payloads ["Where is my order?"]
      [ {[ "text" := PyInt 42; "category" := PyStr "orders" ]} ] !! 0 =
      Some payload /\
    payload !! "text" = Some v' /\
    exists r, format_hit (ScoredPoint 7 score_80 payload) = Returned r /\
              res_text r = v'.
Proof.
  apply (AdapterFacts.metadata_text_overrides example_interpreter no_str
           ["Where is my order?"] [titled_metadata]
           [ {[ "text" := PyInt 42; "category" := PyStr "orders" ]} ]
           0 "Where is my order?" titled_metadata (PyStr "42") 7 score_80).
  - cbn [mapM]. rewrite titled_metadata_cleaned. reflexivity.
  - reflexivity.
  - reflexivity.
  - vm_compute. reflexivity.
Defined.

Lemma clean_metadata_stable_witness :
  clean_metadata example_interpreter no_str
    {[ "text" := PyInt 42; "category" := PyStr "orders" ]} =
    Returned {[ "text" := PyInt 42; "category" := PyStr "orders" ]}.
Proof.
  apply (AdapterFacts.clean_metadata_stable example_interpreter no_str
           titled_metadata).
  - intros key l. unfold titled_metadata.
    destruct (decide (key = "text")) as [->|Ht]; [by simplify_map_eq|].
    destruct (decide (key = "category")) as [->|Hc]; by simplify_map_eq.
  - exact titled_metadata_cleaned.
Defined.

Lemma hybrid_search_keeps_every_hit_witness :
  exists hits,
    faq_text_search [] "return" 5
      (if decide (Some "" = Some "") then None else Some "") = Returned hits /\
    res_id <$> [faq_result 0 score_90; faq_result 1 score_80; faq_result 2 score_50] =
      hit_id <$> hits /\
    res_score <$> [faq_result 0 score_90; faq_result 1 score_80; faq_result 2 score_50] =
      hit_score <$> hits.
Proof.
  apply (AdapterFacts.hybrid_search_keeps_every_hit faq_text_search "return" []
           (Some "") 5).
  vm_compute. reflexivity.
Defined.

Lemma faq_hits_have_text :
  Forall (fun hit => is_Some (hit_payload hit !! "text")) faq_hits.
Proof. repeat constructor; by eexists. Qed.

Lemma semantic_search_first_hits_witness :
  exists rs,
    semantic_search faq_search [] None retrieval_threshold 1 = Returned rs /\
    res_id <$> rs =
      take (Z.to_nat 1)
        (hit_id <$> List.filter (fun hit => SFleb retrieval_threshold (hit_score hit))
                      (take (Z.to_nat (1 * 2)) faq_hits)) /\
    res_score <$> rs =
      take (Z.to_nat 1)
        (hit_score <$> List.filter (fun hit => SFleb retrieval_threshold (hit_score hit))
                         (take (Z.to_nat (1 * 2)) faq_hits)).
Proof.
  apply (AdapterFacts.semantic_search_first_hits faq_search [] None
           retrieval_threshold 1 (take (Z.to_nat (1 * 2)) faq_hits)).
  - lia.
  - reflexivity.
  - apply Forall_take. exact faq_hits_have_text.
Defined.


Lemma faq_row_chunks :
  exists chunks,
    chunk_item split_in_two no_format no_str faq_row = Returned chunks /\
    exists c, chunks !! 1 = Some c.
Proof. eexists. split; [vm_compute; reflexivity|]. by eexists. Qed.

Lemma chunk_item_numbering_witness :
  exists c : chunk,
    chunk_metadata c !! "chunk_num" = Some (PyInt (Z.of_nat 1 + 1)) /\
    chunk_metadata c !! "category" = faq_row !! "Category".
Proof.
  destruct faq_row_chunks as (chunks & Hrun & c & Hc).
  exists c.
  destruct (IngestFacts.chunk_item_numbering split_in_two no_format no_str
              faq_row chunks 1 c Hrun Hc) as (Hnum & _ & Hcat & _).
  by split.
Defined.

Lemma chunk_data_bad_row_aborts_witness :
  exists key,
    chunk_data split_in_two no_format no_str [faq_row; broken_row] =
      Raised (KeyError key).
Proof.
  apply (IngestFacts.chunk_data_bad_row_aborts split_in_two no_format no_str
           [faq_row; broken_row] broken_row).
  - right. left. reflexivity.
  - left. vm_compute. reflexivity.
Defined.

Lemma faq_row_data_chunks :
  exists chunks c,
    chunk_data split_in_two no_format no_str [faq_row] = Returned chunks /\
    In c chunks /\
    clean_metadata example_interpreter no_str (chunk_metadata c) =
      Returned (chunk_metadata c).
Proof.
  eexists. eexists. split; [vm_compute; reflexivity|].
  split; [left; reflexivity|]. vm_compute. reflexivity.
Qed.

Lemma chunk_context_uses_placeholders_witness :
  exists (c : chunk) r,
    format_hit (ScoredPoint 0 score_90
      (chunk_metadata c ∪ {[ "text" := PyStr (chunk_text c) ]})) = Returned r /\
    res_text r = PyStr (chunk_text c) /\
    Rag.context_line no_format no_format no_str 1 r =
      "MATCH #" +:+ pretty 1 +:+ " (Relevance: " +:+ no_format score_90 +:+
        "):" +:+ nl +:+
      "QUESTION: " +:+ chunk_text c +:+ nl +:+
      "ANSWER: No specific answer found" +:+ nl +:+
      "SOURCE: General Knowledge" +:+ nl.
Proof.
  destruct faq_row_data_chunks as (chunks & c & Hrun & Hin & Hclean).
  destruct (IngestFacts.chunk_context_uses_placeholders split_in_two no_format
              no_str example_interpreter no_format [faq_row] chunks c
              (chunk_metadata c) 0 score_90 1 Hrun Hin Hclean)
    as (r & Hfmt & Htext & Hline).
  by exists c, r.
Defined.

Lemma greeting_found_anywhere_witness :
  _is_greeting lower ("W" +:+ "hi" +:+ "ch shipping options?") = true.
Proof.
  apply (ResponseFacts.greeting_found_anywhere "W" "hi" "ch shipping options?" "hi").
  - right. left. reflexivity.
  - reflexivity.
Defined.

Local Abbreviation answered_response :=
  {| answer := "Send the item back within 30 days.";
     sources := [faq_result 0 score_90; faq_result 1 score_80] |}.

Lemma sources_within_policy_witness :
  length (sources answered_response) <= 3 /\
  Forall (fun source => SFleb retrieval_threshold (res_score source) = true)
    (sources answered_response).
Proof.
  refine (ResponseFacts.sources_within_policy lower first_index
            unit_embedding faq_search text_search_refused llm_answers no_format
            no_format no_str return_question fresh_world Answered
            answered_response _ _).
  vm_compute. reflexivity.
Defined.

Lemma semantic_search_bounds_witness :
  Forall (fun r => SFleb retrieval_threshold (res_score r) = true)
    [faq_result 0 score_90] /\
  (Z.of_nat (length [faq_result 0 score_90]) <= 1)%Z.
Proof.
  apply (AdapterFacts.semantic_search_bounds faq_search [] None
           retrieval_threshold 1).
  - lia.
  - vm_compute. reflexivity.
Defined.

End Instances.
